(** * MLBox [Optimiser]: pipeline assembly, cross-validated evaluation and
      hyper-parameter search

    Shallow embedding of [mlbox/optimisation/optimiser.py].

    - The candidate dictionary [params] is a [gmap string pyval]; the code only
      tests membership, reads single keys and scans the key set, so iteration
      order is immaterial there.
    - The search space [space] and the sampler's answer [best_params] are
      association lists in insertion order: the order of iteration decides
      which [ValueError] is raised first.
    - The attributes of [self] are threaded explicitly: [evaluate] receives
      the optimiser and returns the optimiser it leaves behind.
    - scikit-learn, numpy and hyperopt are collaborators behind the
      [Collaborators] interface. *)

From Stdlib Require Import ZArith String Ascii List Bool Lia.
From stdpp Require Import base option list gmap strings sorting.

Local Open Scope string_scope.
Local Open Scope Z_scope.

(** ** Python values *)

(** A float as far as the optimiser looks at it: the three special values and
    the finite ones, [Finite m e] standing for [m * 2^e]. The optimiser itself
    only writes [-np.inf], compares with it and negates. *)
Inductive pyfloat : Type :=
  | NegInf
  | PosInf
  | NaN
  | Finite (m e : Z).

(** [score == -np.inf] *)
Definition is_neg_inf (x : pyfloat) : bool :=
  match x with NegInf => true | _ => false end.

(** unary minus, as in [lambda params: -self.evaluate(params, df)] *)
Definition float_neg (x : pyfloat) : pyfloat :=
  match x with
  | NegInf => PosInf
  | PosInf => NegInf
  | NaN => NaN
  | Finite m e => Finite (- m) e
  end.

#[local] Set Warnings "-register-all".

(** Values found in a candidate or in a search space. [PyObj] is an object
    without [__eq__] of its own (an estimator instance, say): it is equal to
    nothing but itself. *)
Inductive pyval : Type :=
  | PyNone
  | PyBool (b : bool)
  | PyInt (n : Z)
  | PyFloat (x : pyfloat)
  | PyStr (s : string)
  | PyList (l : list pyval)
  | PyObj (id : positive).

(** [v == s] for a string literal [s] *)
Definition py_eq_str (v : pyval) (s : string) : bool :=
  match v with
  | PyStr t => String.eqb t s
  | _ => false
  end.

(** [p.startswith(pre)] *)
Definition startswith (p pre : string) : bool := String.prefix pre p.

(** [p.split("__")[0]]: the text before the leftmost occurrence of the
    separator, the whole string when there is none. *)
Fixpoint split_head (p : string) : string :=
  match p with
  | String "_" (String "_" _) => ""
  | String c rest => String c (split_head rest)
  | EmptyString => ""
  end.

(** Exceptions that leave [evaluate] or [optimise]. *)
Inductive exn : Type :=
  | ValueError (msg : string)
  | KeyError (key : string)
  | IndexError
  | TypeError
  | UnboundLocalError (name : string).

Inductive warning : Type :=
  | Warn (msg : string).

(** ** The optimiser object *)

(** A scorer object; [RocAucScorer] is the one built by
    [make_scorer(lambda y_true, y_pred: roc_auc_score(pd.get_dummies(y_true), y_pred),
                 greater_is_better=True, needs_proba=True)]. *)
Inductive scorer : Type :=
  | RocAucScorer
  | UserScorer (id : positive).

(** [self.scoring]: [None], a string, or a callable. *)
Inductive scoring_t : Type :=
  | ScoringNone
  | ScoringStr (s : string)
  | ScoringCallable (c : scorer).

Record Optimiser : Type := mkOptimiser {
  scoring : scoring_t;
  n_folds : Z;
  random_state : Z;
  to_path : string;
  verbose : bool
}.

Definition set_scoring (self : Optimiser) (sc : scoring_t) : Optimiser :=
  {| scoring := sc;
     n_folds := n_folds self;
     random_state := random_state self;
     to_path := to_path self;
     verbose := verbose self |}.

(** ** Data *)

(** A pandas object is a list of rows, each with its index label. *)
Definition label : Type := Z.

(** [df['target']]: a Series, with its dtype. [IntSeries] is a Series whose
    dtype compares equal to ['int'], [FloatSeries] one whose dtype compares
    equal to ['float'], [ObjectSeries] any other. *)
Inductive Series : Type :=
  | IntSeries (rows : list (label * Z))
  | FloatSeries (rows : list (label * pyfloat))
  | ObjectSeries (rows : list (label * pyval)).

Inductive dtype : Type := dtype_int | dtype_float | dtype_other.

Definition series_dtype (y : Series) : dtype :=
  match y with
  | IntSeries _ => dtype_int
  | FloatSeries _ => dtype_float
  | ObjectSeries _ => dtype_other
  end.

Definition series_index (y : Series) : list label :=
  match y with
  | IntSeries rows => rows.*1
  | FloatSeries rows => rows.*1
  | ObjectSeries rows => rows.*1
  end.

(** [df['train']] *)
Definition DataFrame : Type := list (label * list pyval).

(** [df], with its two keys. *)
Record dataset : Type := mkDataset {
  train : DataFrame;
  target : Series
}.

Definition mem_label (l : label) (ls : list label) : bool :=
  existsb (Z.eqb l) ls.

(** [obj.drop(labels)]: every label must be in the index ([KeyError]
    otherwise); every row carrying one of the labels goes. *)
Definition drop_rows {A} (rows : list (label * A)) (labels : list label)
  : option (list (label * A)) :=
  if forallb (fun l => mem_label l rows.*1) labels
  then Some (List.filter (fun r => negb (mem_label (fst r) labels)) rows)
  else None.

Definition series_drop (y : Series) (labels : list label) : option Series :=
  match y with
  | IntSeries rows => IntSeries <$> drop_rows rows labels
  | FloatSeries rows => FloatSeries <$> drop_rows rows labels
  | ObjectSeries rows => ObjectSeries <$> drop_rows rows labels
  end.

(** number of rows of class [c] *)
Definition class_count (c : Z) (rows : list (label * Z)) : Z :=
  Z.of_nat (length (List.filter (fun r => Z.eqb (snd r) c) rows)).

(** [df['target'].value_counts()]: one entry per class. pandas orders the
    entries by decreasing count; only membership is used below. *)
Definition value_counts (rows : list (label * Z)) : list (Z * Z) :=
  List.map (fun c => (c, class_count c rows)) (List.nodup Z.eq_dec rows.*2).

(** [counts[counts < self.n_folds].index] *)
Definition classes_to_drop (rows : list (label * Z)) (folds : Z) : list Z :=
  (List.filter (fun ck => Z.ltb (snd ck) folds) (value_counts rows)).*1.

(** [df['target'][mask_to_drop].index] with
    [mask_to_drop = df['target'].apply(lambda x: x in classes_to_drop)] *)
Definition indexes_to_drop_clf (rows : list (label * Z)) (folds : Z)
  : list label :=
  (List.filter (fun r => existsb (Z.eqb (snd r)) (classes_to_drop rows folds))
     rows).*1.

(** ** Pipeline stages *)

(** A freshly constructed stage object, named by its class. *)
Inductive stage : Type :=
  | NA_encoder
  | Categorical_encoder
  | Clf_feature_selector
  | Reg_feature_selector
  | StackingClassifier
  | StackingRegressor
  | Classifier
  | Regressor.

(** [Pipeline(pipe)] and [Pipeline(pipe, memory=self.to_path)] *)
Record Pipeline : Type := mkPipeline {
  steps : list (string * stage);
  memory : option string
}.

Inductive task : Type := Classification | Regression.

(** [StratifiedKFold(n_splits, shuffle, random_state)] and
    [KFold(n_splits, shuffle, random_state)] *)
Inductive splitter : Type :=
  | StratifiedKFold (n_splits : Z) (shuffle : bool) (seed : Z)
  | KFold (n_splits : Z) (shuffle : bool) (seed : Z).

(** Both constructors of scikit-learn refuse fewer than two splits. *)
Definition check_n_splits (n : Z) : option exn :=
  if n <=? 1
  then Some (ValueError "k-fold cross-validation requires at least one train/test split by setting n_splits=2 or more")
  else None.

Definition feature_selector_of (t : task) : stage :=
  match t with
  | Classification => Clf_feature_selector
  | Regression => Reg_feature_selector
  end.

Definition stacking_of (t : task) : stage :=
  match t with
  | Classification => StackingClassifier
  | Regression => StackingRegressor
  end.

Definition estimator_of (t : task) : stage :=
  match t with
  | Classification => Classifier
  | Regression => Regressor
  end.

(** ** Activation of the optional stages (lines 191-208 and 255-272) *)

(** [fs = None; for p in params.keys(): if p.startswith("fs__"): fs = ...] *)
Definition scan_fs (t : task) (params : option (gmap string pyval))
  : option stage :=
  match params with
  | None => None
  | Some d =>
      map_fold (fun p _ fs =>
                  if startswith p "fs__" then Some (feature_selector_of t)
                  else fs)
               None d
  end.

(** [STCK = {}; for p in params.keys(): if p.startswith("stck"):
      STCK[p.split("__")[0]] = Stacking...(verbose=False)] *)
Definition scan_stck (t : task) (params : option (gmap string pyval))
  : gmap string stage :=
  match params with
  | None => ∅
  | Some d =>
      map_fold (fun p _ (STCK : gmap string stage) =>
                  if startswith p "stck"
                  then <[split_head p := stacking_of t]> STCK
                  else STCK)
               ∅ d
  end.

(** ** Default scoring (lines 212-234 and 276-292) *)

Definition clf_scorings : list string :=
  ["accuracy"; "roc_auc"; "f1"; "log_loss"; "precision"; "recall"].

Definition reg_scorings : list string :=
  ["mean_absolute_error"; "mean_squared_error"; "median_absolute_error"; "r2"].

Definition str_in (s : string) (l : list string) : bool :=
  existsb (String.eqb s) l.

(** The new [self.scoring], the flag [auc] and the warnings. *)
Definition default_scoring (t : task) (sc : scoring_t)
  : scoring_t * bool * list warning :=
  match t with
  | Classification =>
      match sc with
      | ScoringNone => (ScoringStr "log_loss", false, [])
      | ScoringStr s =>
          if String.eqb s "roc_auc"
          then (ScoringCallable RocAucScorer, true, [])
          else if str_in s clf_scorings
               then (sc, false, [])
               else (ScoringStr "log_loss", false,
                     [Warn "Invalid scoring metric. log_loss is used instead."])
      | ScoringCallable _ => (sc, false, [])
      end
  | Regression =>
      match sc with
      | ScoringNone => (ScoringStr "mean_squared_error", false, [])
      | ScoringStr s =>
          if str_in s reg_scorings
          then (sc, false, [])
          else (ScoringStr "mean_squared_error", false,
                [Warn "Invalid scoring metric. mean_squarred_error is used instead."])
      | ScoringCallable _ => (sc, false, [])
      end
  end.

(** ** Task inference (lines 172-296) *)

(** The locals that the task branch leaves for the rest of [evaluate]. *)
Record task_env : Type := mkTaskEnv {
  te_task : task;
  indexes_to_drop : list label;
  cv : splitter;
  est : stage;
  fs : option stage;
  STCK : gmap string stage;
  auc : bool
}.

Definition task_setup (params : option (gmap string pyval)) (df : dataset)
    (self : Optimiser)
  : exn + (task_env * Optimiser * list warning) :=
  match target df with
  | IntSeries rows =>
      let idx := indexes_to_drop_clf rows (n_folds self) in
      match check_n_splits (n_folds self) with
      | Some e => inl e
      | None =>
          let '(sc, a, ws) := default_scoring Classification (scoring self) in
          inr ({| te_task := Classification;
                  indexes_to_drop := idx;
                  cv := StratifiedKFold (n_folds self) true (random_state self);
                  est := Classifier;
                  fs := scan_fs Classification params;
                  STCK := scan_stck Classification params;
                  auc := a |},
               set_scoring self sc, ws)
      end
  | FloatSeries _ =>
      match check_n_splits (n_folds self) with
      | Some e => inl e
      | None =>
          let '(sc, a, ws) := default_scoring Regression (scoring self) in
          inr ({| te_task := Regression;
                  indexes_to_drop := [];
                  cv := KFold (n_folds self) true (random_state self);
                  est := Regressor;
                  fs := scan_fs Regression params;
                  STCK := scan_stck Regression params;
                  auc := a |},
               set_scoring self sc, ws)
      end
  | ObjectSeries _ =>
      inl (ValueError "Impossible to determine the task. Please check that your target is encoded.")
  end.

(** ** Creating the pipeline (lines 302-346) *)

(** Non-strict lexicographic order on tags, the order of [np.sort] on an
    array of strings. *)
Definition str_le (s1 s2 : string) : Prop := String.leb s1 s2 = true.

#[global] Instance str_le_dec s1 s2 : Decision (str_le s1 s2).
Proof. unfold str_le. apply _. Defined.

(** [np.sort(list(STCK))] *)
Definition sorted_tags (stck : gmap string stage) : list string :=
  merge_sort str_le (map_to_list stck).*1.

(** [cache], after the three tests of lines 306-329 *)
Definition needs_caching (params : option (gmap string pyval))
    (fs : option stage) (stck : gmap string stage) : bool :=
  let cache := false in
  let cache :=
    match params with
    | Some d =>
        match d !! "ce__strategy" with
        | Some v => if py_eq_str v "entity_embedding" then true else cache
        | None => cache
        end
    | None => cache
    end in
  let cache :=
    match fs with
    | Some _ =>
        match params ≫= (.!! "fs__strategy") with
        | Some v => if negb (py_eq_str v "variance") then true else cache
        | None => cache
        end
    | None => cache
    end in
  let cache :=
    if negb (Nat.eqb (size stck) 0) then true else cache in
  cache.

(** [pipe], after lines 302 and 333-341 *)
Definition pipe_steps (e : stage) (fs : option stage)
    (stck : gmap string stage) : list (string * stage) :=
  let pipe := [("ne", NA_encoder); ("ce", Categorical_encoder)] in
  let pipe :=
    match fs with
    | Some f => (pipe ++ [("fs", f)])%list
    | None => pipe
    end in
  let pipe :=
    foldl (fun pipe tag =>
             match stck !! tag with
             | Some s => (pipe ++ [(tag, s)])%list
             | None => pipe
             end)
          pipe (sorted_tags stck) in
  (pipe ++ [("est", e)])%list.

Definition create_pipeline (params : option (gmap string pyval))
    (env : task_env) (self : Optimiser) : Pipeline :=
  let pipe := pipe_steps (est env) (fs env) (STCK env) in
  if needs_caching params (fs env) (STCK env)
  then {| steps := pipe; memory := Some (to_path self) |}
  else {| steps := pipe; memory := None |}.

(** ** The search space of [optimise] *)

(** [space[p]]: a dictionary in which the keys ["search"] and ["space"] may
    be present. *)
Record space_entry : Type := mkEntry {
  search : option pyval;
  space_values : option (list pyval)
}.

(** [hp.uniform(label, low, high)] and [hp.choice(label, options)] *)
Inductive hp_expr : Type :=
  | hp_uniform (name : string) (low high : pyval)
  | hp_choice (name : string) (options : list pyval).

(** ** Collaborators *)

Class Collaborators : Type := {
  (** [pp.set_params( **params)]: [false] when scikit-learn raises *)
  set_params_ok : Pipeline → gmap string pyval → bool;
  (** [cross_val_score(estimator, X, y, scoring, cv)] on the pipeline carrying
      the candidate's parameters: [None] when anything is raised *)
  cross_val_score :
    Pipeline → option (gmap string pyval) → DataFrame → Series →
    scoring_t → splitter → option (list pyfloat);
  (** [np.mean] *)
  np_mean : list pyfloat → pyfloat;
  (** [np.sort] on a list of values *)
  np_sort : list pyval → list pyval;
  (** [fmin(objective, space, algo=tpe.suggest, max_evals)]; the objective
      runs on the optimiser and leaves it changed *)
  fmin :
    (gmap string pyval → Optimiser → (exn + pyfloat) * Optimiser) →
    list (string * hp_expr) → Z → Optimiser →
    (exn + list (string * pyval)) * Optimiser
}.

(** ** [evaluate] *)

(** What a call leaves behind: the value returned or the exception raised,
    [self], the local [scores] when it was bound, and the warnings. *)
Record evaluation : Type := mkEvaluation {
  ev_return : exn + pyfloat;
  ev_self : Optimiser;
  ev_scores : option (list pyfloat);
  ev_warnings : list warning
}.

(** The body of the [try] of lines 409-417, up to [scores]. *)
Definition cross_validate `{Collaborators} (pp : Pipeline)
    (params : option (gmap string pyval)) (df : dataset) (env : task_env)
    (self : Optimiser) : option (list pyfloat) :=
  X ← drop_rows (train df) (indexes_to_drop env);
  y ← series_drop (target df) (indexes_to_drop env);
  cross_val_score pp params X y (scoring self) (cv env).

(** The local [i] after the verbose listing of lines 369-407: bound by
    [for i, stck in enumerate(np.sort(list(STCK)))] when there is a layer. *)
Definition i_after_listing (self : Optimiser) (env : task_env) : option Z :=
  if verbose self
  then match sorted_tags (STCK env) with
       | [] => None
       | tags => Some (Z.of_nat (length tags) - 1)
       end
  else None.

(** The local [i] after [for i, s in enumerate(scores[:-1])]. *)
Definition i_after_folds (i : option Z) (scores : list pyfloat) : option Z :=
  match removelast scores with
  | [] => i
  | init => Some (Z.of_nat (length init) - 1)
  end.

(** Lines 437-453. *)
Definition report (i : option Z) (scores : list pyfloat) (score : pyfloat)
    (env : task_env) (self : Optimiser) (ws : list warning) : evaluation :=
  let i := i_after_folds i scores in
  let self := if auc env then set_scoring self (ScoringStr "roc_auc") else self in
  let ret :=
    if verbose self
    then match i with
         | None => inl (UnboundLocalError "i")
         | Some _ =>
             match last scores with
             | None => inl IndexError
             | Some _ => inr score
             end
         end
    else inr score in
  {| ev_return := ret; ev_self := self; ev_scores := Some scores;
     ev_warnings := ws |}.

(** Lines 298-453: the pipeline, the fit and the report, from the
    environment left by the task branch. *)
Definition fit_and_report `{Collaborators}
    (params : option (gmap string pyval)) (df : dataset) (env : task_env)
    (self : Optimiser) (ws : list warning) : evaluation :=
  let pp := create_pipeline params env self in
  let set_params :=
    match params with
    | None => true
    | Some d => set_params_ok pp d
    end in
  if set_params
  then
    let i := i_after_listing self env in
    let '(scores, score) :=
      match cross_validate pp params df env self with
      | Some scores => (scores, np_mean scores)
      | None => (replicate (Z.to_nat (n_folds self)) NegInf, NegInf)
      end in
    let ws :=
      if is_neg_inf score
      then (ws ++ [Warn "An error occurred while computing the cross validation mean score. Check the parameter values and your scoring function."])%list
      else ws in
    report i scores score env self ws
  else
    {| ev_return := inl (ValueError "Pipeline cannot be set with these parameters. Check the name of your stages.");
       ev_self := self; ev_scores := None; ev_warnings := ws |}.

Definition evaluate `{Collaborators} (params : option (gmap string pyval))
    (df : dataset) (self : Optimiser) : evaluation :=
  match task_setup params df self with
  | inl e =>
      {| ev_return := inl e; ev_self := self; ev_scores := None;
         ev_warnings := [] |}
  | inr (env, self, ws) => fit_and_report params df env self ws
  end.

(** ** [optimise] *)

(** [lambda params: -self.evaluate(params, df)] *)
Definition hyperopt_objective `{Collaborators} (df : dataset)
    (params : gmap string pyval) (self : Optimiser)
  : (exn + pyfloat) * Optimiser :=
  let r := evaluate (Some params) df self in
  (match ev_return r with
   | inl e => inl e
   | inr score => inr (float_neg score)
   end, ev_self r).

(** One turn of the loop of lines 542-565. *)
Definition hyper_entry `{Collaborators} (p : string) (e : space_entry)
  : exn + hp_expr :=
  match space_values e with
  | None =>
      inl (ValueError ("You must give a space list ie values for hyper parameter " ++ p ++ "."))
  | Some vals =>
      match search e with
      | Some s =>
          if py_eq_str s "uniform"
          then match head (np_sort vals), last (np_sort vals) with
               | Some lo, Some hi => inr (hp_uniform p lo hi)
               | _, _ => inl IndexError
               end
          else if py_eq_str s "choice"
               then inr (hp_choice p vals)
               else inl (ValueError ("Invalid search strategy for hyper parameter " ++ p ++ ". Please choose between 'choice' and 'uniform'."))
      | None => inr (hp_choice p vals)
      end
  end.

(** [hyper_space], entry after entry in the order of [space.keys()]; the
    keys of a dictionary are distinct, so that [space[p]] is the entry met. *)
Fixpoint hyper_space_of `{Collaborators} (space : list (string * space_entry))
  : exn + list (string * hp_expr) :=
  match space with
  | [] => inr []
  | (p, e) :: rest =>
      match hyper_entry p e with
      | inl err => inl err
      | inr h =>
          match hyper_space_of rest with
          | inl err => inl err
          | inr hs => inr ((p, h) :: hs)
          end
      end
  end.

(** [d[k]] on an association list *)
Definition dict_get {V} (d : list (string * V)) (k : string) : option V :=
  snd <$> List.find (fun kv => String.eqb (fst kv) k) d.

(** [l[v]]: an integer index, counted from the end when negative. *)
Definition py_getitem (l : list pyval) (v : pyval) : exn + pyval :=
  let at_index (i : Z) :=
    let n := Z.of_nat (length l) in
    let j := if i <? 0 then n + i else i in
    if (0 <=? j) && (j <? n)
    then match l !! Z.to_nat j with
         | Some x => inr x
         | None => inl IndexError
         end
    else inl IndexError in
  match v with
  | PyInt i => at_index i
  | PyBool b => at_index (if b then 1 else 0)
  | _ => inl TypeError
  end.

(** [space[p]["space"][v]] *)
Definition choice_value (e : space_entry) (v : pyval) : exn + pyval :=
  match space_values e with
  | None => inl (KeyError "space")
  | Some vals => py_getitem vals v
  end.

(** One turn of the loop of lines 574-581: the new [best_params[p]]. *)
Definition translate_entry (space : list (string * space_entry))
    (p : string) (v : pyval) : exn + pyval :=
  match dict_get space p with
  | None => inl (KeyError p)
  | Some e =>
      match search e with
      | Some s =>
          if py_eq_str s "choice" then choice_value e v else inr v
      | None => choice_value e v
      end
  end.

Fixpoint translate_best (space : list (string * space_entry))
    (best_params : list (string * pyval)) : exn + list (string * pyval) :=
  match best_params with
  | [] => inr []
  | (p, v) :: rest =>
      match translate_entry space p v with
      | inl err => inl err
      | inr v' =>
          match translate_best space rest with
          | inl err => inl err
          | inr out => inr ((p, v') :: out)
          end
      end
  end.

Definition empty_space_warning : warning :=
  Warn "Space is empty. Please define a search space. Otherwise, call the method 'evaluate' for custom settings".

(** The dictionary returned or the exception raised, [self] afterwards and
    the warnings of [optimise] itself. *)
Definition optimise `{Collaborators}
    (space : option (list (string * space_entry))) (df : dataset)
    (max_evals : Z) (self : Optimiser)
  : (exn + list (string * pyval)) * Optimiser * list warning :=
  match space with
  | None => (inr [], self, [empty_space_warning])
  | Some sp =>
      if Nat.eqb (length sp) 0
      then (inr [], self, [empty_space_warning])
      else
        match hyper_space_of sp with
        | inl err => (inl err, self, [])
        | inr hyper_space =>
            match fmin (hyperopt_objective df) hyper_space max_evals self with
            | (inl err, self) => (inl err, self, [])
            | (inr best_params, self) =>
                (translate_best sp best_params, self, [])
            end
        end
  end.

(** ** Vocabulary of the statements *)

(** The task that goes with a dtype, when there is one. *)
Definition task_of_dtype (t : dtype) : option task :=
  match t with
  | dtype_int => Some Classification
  | dtype_float => Some Regression
  | dtype_other => None
  end.

(** The scorer names listed for a task, and the one used by default. *)
Definition recognised_scorings (t : task) : list string :=
  match t with
  | Classification => clf_scorings
  | Regression => reg_scorings
  end.

Definition default_scoring_name (t : task) : string :=
  match t with
  | Classification => "log_loss"
  | Regression => "mean_squared_error"
  end.

(** Some key of the candidate starts with [pre]. *)
Definition has_key_with_prefix (params : option (gmap string pyval))
    (pre : string) : Prop :=
  ∃ d p, params = Some d ∧ is_Some (d !! p) ∧ startswith p pre = true.

(** The candidate gives [key] a value. *)
Definition candidate_value (params : option (gmap string pyval))
    (key : string) (v : pyval) : Prop :=
  ∃ d, params = Some d ∧ d !! key = Some v.

(** [tag] names a stacking layer asked for by the candidate. *)
Definition stacking_tag (params : option (gmap string pyval))
    (tag : string) : Prop :=
  ∃ d p, params = Some d ∧ is_Some (d !! p) ∧ startswith p "stck" = true
         ∧ split_head p = tag.

(** The strategy of a space entry is "choice", given or by default. *)
Definition is_choice (e : space_entry) : Prop :=
  search e = None ∨ search e = Some (PyStr "choice").

Definition is_uniform (e : space_entry) : Prop :=
  search e = Some (PyStr "uniform").

(** What hyperopt promises about the dictionary it returns: its keys are
    labels of the space, and a "choice" label comes with an index into the
    options. *)
Definition sampler_answer (space : list (string * space_entry))
    (best : list (string * pyval)) : Prop :=
  Forall (fun pv =>
            ∃ e, dict_get space (fst pv) = Some e ∧
                 (is_choice e →
                  ∃ i vals, snd pv = PyInt i ∧ space_values e = Some vals
                            ∧ 0 <= i < Z.of_nat (length vals)))
         best.

(** The warning of line 429. *)
Definition failure_warning : warning :=
  Warn "An error occurred while computing the cross validation mean score. Check the parameter values and your scoring function.".

(** An entry of the sampler space mirrors the declared entry: same key as
    label, the declared values as options, in their order, for a "choice",
    the ends of the sorted values as bounds for a "uniform". *)
Definition mirrors `{Collaborators} (pe : string * space_entry)
    (ph : string * hp_expr) : Prop :=
  ph.1 = pe.1
  ∧ match ph.2 with
    | hp_choice name options =>
        name = pe.1 ∧ is_choice pe.2 ∧ space_values pe.2 = Some options
    | hp_uniform name low high =>
        name = pe.1 ∧ is_uniform pe.2
        ∧ ∃ vals, space_values pe.2 = Some vals
                  ∧ head (np_sort vals) = Some low
                  ∧ last (np_sort vals) = Some high
    end.

(** ** A small set of collaborators, to run the definitions on examples *)

(** A candidate is accepted when the stage tag of every key names a step;
    cross-validation fails on an empty frame and otherwise gives one score
    per split; the mean of equal scores is that score; the sampler answers
    with the first option and the lower bound. *)
Definition sample_set_params_ok (pp : Pipeline) (d : gmap string pyval)
  : bool :=
  forallb (fun p => str_in (split_head p) (steps pp).*1) (map_to_list d).*1.

Definition n_splits_of (s : splitter) : Z :=
  match s with
  | StratifiedKFold n _ _ => n
  | KFold n _ _ => n
  end.

Definition sample_cross_val_score (pp : Pipeline)
    (params : option (gmap string pyval)) (X : DataFrame) (y : Series)
    (sc : scoring_t) (s : splitter) : option (list pyfloat) :=
  match X with
  | [] => None
  | _ => Some (replicate (Z.to_nat (n_splits_of s)) (Finite (-1) 0))
  end.

Definition sample_mean (scores : list pyfloat) : pyfloat :=
  match scores with
  | x :: _ => x
  | [] => NaN
  end.

Definition sample_answer (h : hp_expr) : pyval :=
  match h with
  | hp_uniform _ low _ => low
  | hp_choice _ _ => PyInt 0
  end.

Definition sample_fmin
    (objective : gmap string pyval → Optimiser → (exn + pyfloat) * Optimiser)
    (hyper_space : list (string * hp_expr)) (max_evals : Z) (self : Optimiser)
  : (exn + list (string * pyval)) * Optimiser :=
  (inr (List.map (fun ph => (fst ph, sample_answer (snd ph))) hyper_space),
   self).

Definition sample_collaborators : Collaborators :=
  {| set_params_ok := sample_set_params_ok;
     cross_val_score := sample_cross_val_score;
     np_mean := sample_mean;
     np_sort := fun l => l;
     fmin := sample_fmin |}.

(** [Optimiser()] *)
Definition default_optimiser : Optimiser :=
  {| scoring := ScoringNone; n_folds := 2; random_state := 1;
     to_path := "save"; verbose := true |}.

(** Four rows, classes 0, 0, 0 and 1. *)
Definition sample_clf : dataset :=
  {| train := [(0, [PyInt 5]); (1, [PyInt 6]); (2, [PyInt 7]); (3, [PyInt 8])];
     target := IntSeries [(0, 0); (1, 0); (2, 0); (3, 1)] |}.

Definition sample_reg : dataset :=
  {| train := [(0, [PyInt 5]); (1, [PyInt 6])];
     target := FloatSeries [(0, Finite 1 0); (1, Finite 3 (-1))] |}.

Definition sample_str : dataset :=
  {| train := [(0, [PyInt 5]); (1, [PyInt 6])];
     target := ObjectSeries [(0, PyStr "a"); (1, PyStr "b")] |}.

(** A data set on which cross-validation fails: no rows. *)
Definition sample_empty : dataset :=
  {| train := []; target := IntSeries [] |}.

Definition sample_candidate : gmap string pyval :=
  <["stck2__level_estimator" := PyObj 1]>
    (<["stck1__n_folds" := PyInt 3]>
       (<["fs__threshold" := PyFloat (Finite 1 (-2))]>
          (<["est__max_depth" := PyInt 4]> ∅))).

Definition sample_space : list (string * space_entry) :=
  [("est__max_depth",
    {| search := Some (PyStr "choice");
       space_values := Some [PyInt 3; PyInt 5; PyInt 7] |});
   ("ne__numerical_strategy",
    {| search := None; space_values := Some [PyInt 0; PyStr "mean"] |});
   ("est__subsample",
    {| search := Some (PyStr "uniform");
       space_values := Some [PyFloat (Finite 1 (-1)); PyFloat (Finite 1 0)] |})].

Definition embedding_candidate : gmap string pyval :=
  {["ce__strategy" := PyStr "entity_embedding"]}.

Definition label_encoding_candidate : gmap string pyval :=
  {["ce__strategy" := PyStr "label_encoding"]}.

Definition threshold_candidate : gmap string pyval :=
  {["fs__threshold" := PyFloat (Finite 1 (-2))]}.

(** A candidate whose stage tag names no step. *)
Definition misnamed_candidate : gmap string pyval :=
  {["foo__bar" := PyInt 1]}.

(** ** [__init__], [get_params] and [set_params] (lines 71-104) *)

(** [setattr] stores a value of any type under any of the five names, so
    that for these three methods an instance is its dictionary of
    attributes. *)
Definition param_names : list string :=
  ["scoring"; "n_folds"; "random_state"; "to_path"; "verbose"].

Definition invalid_parameter_warning : warning :=
  Warn "Invalid parameter a for optimiser Optimiser. Parameter IGNORED. Check the list of available parameters with `optimiser.get_params().keys()`".

(** [Optimiser(scoring, n_folds, random_state, to_path, verbose)], with
    [to_path] a string as documented. *)
Definition init (scoring n_folds random_state : pyval) (to_path : string)
    (verbose : pyval) : gmap string pyval * list warning :=
  (<["verbose" := verbose]>
     (<["to_path" := PyStr to_path]>
        (<["random_state" := random_state]>
           (<["n_folds" := n_folds]> (<["scoring" := scoring]> ∅)))),
   [Warn ("Optimiser will save all your fitted models into directory '"
          ++ to_path ++ "/joblib'. Please clear it regularly.")]).

(** [get_params]; [None] is the [AttributeError] of an attribute that the
    instance does not have. *)
Definition get_params (obj : gmap string pyval) : option (gmap string pyval) :=
  sc ← obj !! "scoring";
  nf ← obj !! "n_folds";
  rs ← obj !! "random_state";
  tp ← obj !! "to_path";
  vb ← obj !! "verbose";
  Some (list_to_map [("scoring", sc); ("n_folds", nf); ("random_state", rs);
                     ("to_path", tp); ("verbose", vb)]).

(** One turn of the loop of lines 98-104. *)
Definition set_param (k : string) (v : pyval)
    (acc : option (gmap string pyval * list warning))
  : option (gmap string pyval * list warning) :=
  '(obj, ws) ← acc;
  known ← get_params obj;
  match known !! k with
  | None => Some (obj, (ws ++ [invalid_parameter_warning])%list)
  | Some _ => Some (<[k := v]> obj, ws)
  end.

(** [set_params( **params)]: the instance afterwards and the warnings. The
    warnings all carry the same text and the keys are distinct, so that the
    order of [params.items()] does not show. *)
Definition set_params (params : gmap string pyval) (obj : gmap string pyval)
  : option (gmap string pyval * list warning) :=
  let obj := <["_Optimiser__fitOK" := PyBool false]> obj in
  map_fold set_param (Some (obj, [])) params.

(** A call [set_params(n_folds=5, n_fold=3)], the second name misspelt. *)
Definition sample_kwargs : gmap string pyval :=
  <["n_folds" := PyInt 5]> (<["n_fold" := PyInt 3]> ∅).

Definition sample_instance : gmap string pyval :=
  (init PyNone (PyInt 2) (PyInt 1) "save" (PyBool true)).1.

Definition depth_candidate : gmap string pyval :=
  {["est__max_depth" := PyInt 4]}.

(** * Properties *)

(** ** Comparisons with string literals *)

Lemma py_eq_str_true v s : py_eq_str v s = true ↔ v = PyStr s.
Proof.
  destruct v; simpl; try (split; [discriminate | intros [=]]).
  rewrite String.eqb_eq. split; [congruence | by intros [= ->]].
Qed.

Lemma py_eq_str_false v s : py_eq_str v s = false ↔ v ≠ PyStr s.
Proof.
  rewrite <- py_eq_str_true. destruct (py_eq_str v s); split; congruence.
Qed.

(** ** Which optional stages a candidate activates *)

Lemma scan_fs_inv t params :
  (scan_fs t params = None ∧ ¬ has_key_with_prefix params "fs__")
  ∨ (scan_fs t params = Some (feature_selector_of t)
     ∧ has_key_with_prefix params "fs__").
Proof.
  destruct params as [d|]; simpl.
  2: { left. split; [done|]. intros (d & p & [=] & _). }
  cut ((map_fold (λ p (_ : pyval) fs,
          if startswith p "fs__" then Some (feature_selector_of t) else fs)
          None d = None
        ∧ ∀ p, is_Some (d !! p) → startswith p "fs__" = false)
       ∨ (map_fold (λ p (_ : pyval) fs,
            if startswith p "fs__" then Some (feature_selector_of t) else fs)
            None d = Some (feature_selector_of t)
          ∧ ∃ p, is_Some (d !! p) ∧ startswith p "fs__" = true)).
  { intros [[-> Hno]|[-> (p & Hp & Hpre)]]; [left|right]; split; try done.
    - intros (d' & p & [= <-] & Hp & Hpre). rewrite (Hno p Hp) in Hpre. done.
    - by exists d, p. }
  apply (map_fold_weak_ind (λ r m,
    (r = None ∧ ∀ p, is_Some (m !! p) → startswith p "fs__" = false)
    ∨ (r = Some (feature_selector_of t)
       ∧ ∃ p, is_Some (m !! p) ∧ startswith p "fs__" = true))).
  - left. split; [done|]. intros p. rewrite lookup_empty. by intros [? [=]].
  - intros p x m r Hfresh IH.
    destruct (startswith p "fs__") eqn:Hpre.
    + right. split; [done|]. exists p. by rewrite lookup_insert_eq.
    + destruct IH as [[-> Hno]|[-> (q & Hq & Hqpre)]]; [left|right]; split; try done.
      * intros q. rewrite lookup_insert. case_decide; subst; eauto.
      * exists q. split; [|done]. rewrite lookup_insert_ne; [done|].
        intros ->. rewrite Hfresh in Hq. by destruct Hq.
Qed.

Lemma scan_stck_lookup t params tag s :
  scan_stck t params !! tag = Some s ↔ s = stacking_of t ∧ stacking_tag params tag.
Proof.
  destruct params as [d|]; simpl.
  2: { rewrite lookup_empty. split; [done|]. by intros (_ & d & p & [=] & _). }
  cut (map_fold (λ p (_ : pyval) (STCK : gmap string stage),
          if startswith p "stck" then <[split_head p := stacking_of t]> STCK
          else STCK) ∅ d !! tag = Some s
       ↔ s = stacking_of t
         ∧ ∃ p, is_Some (d !! p) ∧ startswith p "stck" = true ∧ split_head p = tag).
  { intros ->. split; intros (-> & H); (split; [done|]).
    - destruct H as (p & ?). by exists d, p.
    - destruct H as (d' & p & [= <-] & ?). by exists p. }
  revert tag s.
  apply (map_fold_weak_ind (λ (r : gmap string stage) (m : gmap string pyval),
    ∀ tag s, r !! tag = Some s
      ↔ s = stacking_of t
        ∧ ∃ p, is_Some (m !! p) ∧ startswith p "stck" = true ∧ split_head p = tag)).
  - intros tag s. rewrite lookup_empty. split; [done|].
    intros (_ & p & Hp & _). rewrite lookup_empty in Hp. by destruct Hp.
  - intros p x m r Hfresh IH tag s.
    assert (Hstep : (∃ q, is_Some (<[p:=x]> m !! q) ∧ startswith q "stck" = true
                          ∧ split_head q = tag)
                    ↔ (startswith p "stck" = true ∧ split_head p = tag)
                      ∨ ∃ q, is_Some (m !! q) ∧ startswith q "stck" = true
                             ∧ split_head q = tag).
    { split.
      - intros (q & Hq & Hpre & Htag). destruct (decide (p = q)) as [->|Hne].
        + by left.
        + right. exists q. by rewrite lookup_insert_ne in Hq.
      - intros [[Hpre Htag]|(q & Hq & Hpre & Htag)].
        + exists p. by rewrite lookup_insert_eq.
        + exists q. split; [|done]. rewrite lookup_insert_ne; [done|].
          intros ->. rewrite Hfresh in Hq. by destruct Hq. }
    rewrite Hstep. destruct (startswith p "stck") eqn:Hpre.
    + rewrite lookup_insert. case_decide as Htag.
      * subst tag. split; [intros [= <-]; eauto|]. by intros [-> _].
      * rewrite IH. split; [intros (-> & H); eauto|].
        intros (-> & [[_ ?]|H]); [done|eauto].
    + rewrite IH. split; [intros (-> & H); eauto|].
      intros (-> & [[? _]|H]); [done|eauto].
Qed.

(** ** The order of the stacking layers *)

Lemma string_compare_trans_le s1 : ∀ s2 s3,
  String.compare s1 s2 ≠ Gt → String.compare s2 s3 ≠ Gt →
  String.compare s1 s3 ≠ Gt.
Proof.
  induction s1 as [|a s1 IH]; intros [|b s2] [|c s3]; simpl; try done.
  unfold Ascii.compare.
  destruct (N.compare_spec (N_of_ascii a) (N_of_ascii b)) as [Hab|Hab|Hab];
    destruct (N.compare_spec (N_of_ascii b) (N_of_ascii c)) as [Hbc|Hbc|Hbc];
    destruct (N.compare_spec (N_of_ascii a) (N_of_ascii c)) as [Hac|Hac|Hac];
    try done; try lia.
  apply IH.
Qed.

#[global] Instance str_le_total : Total str_le.
Proof. intros s1 s2. apply String.leb_total. Qed.

#[global] Instance str_le_trans : Transitive str_le.
Proof.
  intros s1 s2 s3. unfold str_le, String.leb. intros H12 H23.
  pose proof (string_compare_trans_le s1 s2 s3) as Ht.
  destruct (String.compare s1 s2), (String.compare s2 s3),
    (String.compare s1 s3); try done; exfalso; by apply Ht.
Qed.

#[global] Instance str_le_antisym : AntiSymm (=) str_le.
Proof. intros s1 s2. apply String.leb_antisym. Qed.

Lemma sorted_tags_elem_of (stck : gmap string stage) tag :
  tag ∈ sorted_tags stck ↔ is_Some (stck !! tag).
Proof.
  unfold sorted_tags. rewrite merge_sort_Permutation, list_elem_of_fmap.
  split.
  - intros ([k s] & -> & Hin). apply elem_of_map_to_list in Hin. by exists s.
  - intros [s Hs]. exists (tag, s). split; [done|]. by apply elem_of_map_to_list.
Qed.

Lemma sorted_tags_NoDup (stck : gmap string stage) : NoDup (sorted_tags stck).
Proof.
  unfold sorted_tags. rewrite merge_sort_Permutation.
  apply NoDup_fst_map_to_list.
Qed.

Lemma sorted_tags_sorted (stck : gmap string stage) :
  StronglySorted str_le (sorted_tags stck).
Proof. apply StronglySorted_merge_sort; apply _. Qed.

Lemma stacking_steps (stck : gmap string stage) s tags pipe :
  (∀ tag, tag ∈ tags → stck !! tag = Some s) →
  foldl (λ pipe tag,
           match stck !! tag with
           | Some s => (pipe ++ [(tag, s)])%list
           | None => pipe
           end) pipe tags
  = (pipe ++ ((λ tag, (tag, s)) <$> tags))%list.
Proof.
  revert pipe. induction tags as [|tag tags IH]; intros pipe Hall; simpl.
  - by rewrite app_nil_r.
  - rewrite (Hall tag) by apply list_elem_of_here.
    rewrite IH by (intros; apply Hall; by apply list_elem_of_further).
    by rewrite <- app_assoc.
Qed.

(** ** Assembling the pipeline *)

(** What [task_setup] leaves in the environment when it succeeds. *)
Lemma task_setup_inr params df self env self' ws :
  task_setup params df self = inr (env, self', ws) →
  2 <= n_folds self
  ∧ task_of_dtype (series_dtype (target df)) = Some (te_task env)
  ∧ est env = estimator_of (te_task env)
  ∧ fs env = scan_fs (te_task env) params
  ∧ STCK env = scan_stck (te_task env) params
  ∧ default_scoring (te_task env) (scoring self) = (scoring self', auc env, ws)
  ∧ self' = set_scoring self (scoring self').
Proof.
  unfold task_setup, check_n_splits.
  destruct (target df) as [rows|rows|rows]; [| |done];
    (destruct (n_folds self <=? 1) eqn:Hn; [done|]);
    apply Z.leb_gt in Hn;
    [destruct (default_scoring Classification (scoring self)) as [[sc a] w] eqn:Hsc
    |destruct (default_scoring Regression (scoring self)) as [[sc a] w] eqn:Hsc];
    intros [= <- <- <-]; cbn [te_task est fs STCK auc]; rewrite Hsc;
    repeat split; try done; lia.
Qed.

Lemma stck_size_nonzero t params :
  negb (Nat.eqb (size (scan_stck t params)) 0) = true
  ↔ has_key_with_prefix params "stck".
Proof.
  rewrite negb_true_iff, Nat.eqb_neq, map_size_ne_0_lookup. split.
  - intros (tag & s & Hs%scan_stck_lookup).
    destruct Hs as (_ & d & p & ? & ? & ? & _). by exists d, p.
  - intros (d & p & -> & Hp & Hpre). exists (split_head p).
    exists (stacking_of t). apply scan_stck_lookup. split; [done|]. by exists d, p.
Qed.


Lemma memory_create_pipeline params env self :
  (memory (create_pipeline params env self) = Some (to_path self)
   ↔ needs_caching params (fs env) (STCK env) = true)
  ∧ (memory (create_pipeline params env self) = None
     ↔ needs_caching params (fs env) (STCK env) = false).
Proof.
  unfold create_pipeline.
  destruct (needs_caching params (fs env) (STCK env)); simpl; by repeat split.
Qed.

Lemma stacking_tag_prefix params :
  (∃ tag, stacking_tag params tag) ↔ has_key_with_prefix params "stck".
Proof.
  split.
  - intros (tag & d & p & ? & ? & ? & _). by exists d, p.
  - intros (d & p & ? & ? & ?). exists (split_head p). by exists d, p.
Qed.

(** The three tests on [cache], read on the candidate alone. *)
Lemma needs_caching_true t params :
  needs_caching params (scan_fs t params) (scan_stck t params) = true
  ↔ candidate_value params "ce__strategy" (PyStr "entity_embedding")
    ∨ (has_key_with_prefix params "fs__"
       ∧ ∃ v, candidate_value params "fs__strategy" v ∧ v ≠ PyStr "variance")
    ∨ (∃ tag, stacking_tag params tag).
Proof.
  unfold needs_caching. rewrite stacking_tag_prefix.
  destruct (negb (Nat.eqb (size (scan_stck t params)) 0)) eqn:Hsz.
  { apply stck_size_nonzero in Hsz. split; [|done]. intros _. by right; right. }
  assert (Hno : ¬ has_key_with_prefix params "stck").
  { intros Hyes%(stck_size_nonzero t). congruence. }
  assert (Hce : match params with
                | Some d =>
                    match d !! "ce__strategy" with
                    | Some v => if py_eq_str v "entity_embedding" then true else false
                    | None => false
                    end
                | None => false
                end = true
                ↔ candidate_value params "ce__strategy" (PyStr "entity_embedding")).
  { destruct params as [d|]; [|split; [done|by intros (? & [=] & _)]].
    destruct (d !! "ce__strategy") as [v|] eqn:Hv.
    - destruct (py_eq_str v "entity_embedding") eqn:Heq.
      + apply py_eq_str_true in Heq as ->. split; [|done]. intros _. by exists d.
      + apply py_eq_str_false in Heq. split; [done|].
        intros (d' & [= <-] & ?). congruence.
    - split; [done|]. intros (d' & [= <-] & ?). congruence. }
  destruct (scan_fs_inv t params) as [[-> Hnofs]|[-> Hyesfs]].
  - rewrite Hce. split; [by left|]. by intros [?|[[? _]|?]].
  - destruct (params ≫= (.!! "fs__strategy")) as [w|] eqn:Hw.
    + destruct params as [d|]; [simpl in Hw|done].
      destruct (negb (py_eq_str w "variance")) eqn:Hneg.
      * apply negb_true_iff, py_eq_str_false in Hneg. split; [|done].
        intros _. right; left. split; [done|]. exists w. split; [by exists d|done].
      * apply negb_false_iff, py_eq_str_true in Hneg as ->.
        rewrite Hce. split; [by left|].
        intros [?|[[_ (v & (d' & [= <-] & ?) & ?)]|?]]; [done|congruence|done].
    + rewrite Hce. split; [by left|].
      intros [?|[[_ (v & (d' & -> & ?) & ?)]|?]]; [done| |done].
      simpl in Hw. congruence.
Qed.

(** C1. For every candidate, the pipeline that [evaluate] assembles carries
    the caching layer ([memory = self.to_path]) exactly when the candidate sets
    ["ce__strategy"] to ["entity_embedding"], or a feature selector is
    activated and the candidate gives ["fs__strategy"] a value other than
    ["variance"], or some stacking layer is activated; otherwise it carries
    none ([memory = None]). *)
Theorem caching_iff_expensive_stage params df self env self' ws :
  task_setup params df self = inr (env, self', ws) →
  let pp := create_pipeline params env self' in
  let expensive :=
    candidate_value params "ce__strategy" (PyStr "entity_embedding")
    ∨ (has_key_with_prefix params "fs__"
       ∧ ∃ v, candidate_value params "fs__strategy" v ∧ v ≠ PyStr "variance")
    ∨ (∃ tag, stacking_tag params tag) in
  (memory pp = Some (to_path self') ↔ expensive)
  ∧ (memory pp = None ↔ ¬ expensive).
Proof.
  intros Hsetup pp expensive.
  destruct (task_setup_inr _ _ _ _ _ _ Hsetup)
    as (_ & _ & _ & Hfs & Hstck & _ & _).
  destruct (memory_create_pipeline params env self') as [Hsome Hnone].
  fold pp in Hsome, Hnone. rewrite Hsome, Hnone, Hfs, Hstck.
  rewrite <- not_true_iff_false, needs_caching_true. done.
Qed.

(** C10. When a key starting with ["fs__"] activates the feature selector but
    the candidate has no key ["fs__strategy"], the selector adds nothing to
    the caching decision: the pipeline is cached exactly when the
    categorical-encoder test or the stacking test asks for it. *)
Theorem fs_without_strategy_adds_no_caching params df self env self' ws :
  task_setup params df self = inr (env, self', ws) →
  has_key_with_prefix params "fs__" →
  (∀ v, ¬ candidate_value params "fs__strategy" v) →
  let pp := create_pipeline params env self' in
  let others :=
    candidate_value params "ce__strategy" (PyStr "entity_embedding")
    ∨ (∃ tag, stacking_tag params tag) in
  fs env = Some (feature_selector_of (te_task env))
  ∧ (memory pp = Some (to_path self') ↔ others)
  ∧ (memory pp = None ↔ ¬ others).
Proof.
  intros Hsetup Hactive Habsent pp others.
  destruct (task_setup_inr _ _ _ _ _ _ Hsetup)
    as (_ & _ & _ & Hfs & Hstck & _ & _).
  split.
  { rewrite Hfs. by destruct (scan_fs_inv (te_task env) params) as [[_ ?]|[-> _]]. }
  destruct (memory_create_pipeline params env self') as [Hsome Hnone].
  fold pp in Hsome, Hnone. rewrite Hsome, Hnone, Hfs, Hstck.
  rewrite <- not_true_iff_false, needs_caching_true.
  assert (Hfsno : ¬ (has_key_with_prefix params "fs__"
                     ∧ ∃ v, candidate_value params "fs__strategy" v
                            ∧ v ≠ PyStr "variance")).
  { intros (_ & v & Hv & _). by apply (Habsent v). }
  unfold others. tauto.
Qed.

(** C6. Without any key starting with ["fs__"] or ["stck"], the assembled
    pipeline is exactly [ne; ce; est]. In general it is [ne; ce], then the
    feature selector when one is activated, then one layer per stacking tag
    in increasing order of the tags, then the estimator. *)
Theorem pipeline_stage_order params df self env self' ws :
  task_setup params df self = inr (env, self', ws) →
  let pp := create_pipeline params env self' in
  let t := te_task env in
  (¬ has_key_with_prefix params "fs__" → ¬ has_key_with_prefix params "stck" →
   steps pp = [("ne", NA_encoder); ("ce", Categorical_encoder);
               ("est", estimator_of t)])
  ∧ ∃ selector tags,
      steps pp = ([("ne", NA_encoder); ("ce", Categorical_encoder)]
                  ++ selector
                  ++ ((λ tag, (tag, stacking_of t)) <$> tags)
                  ++ [("est", estimator_of t)])%list
      ∧ (has_key_with_prefix params "fs__"
         → selector = [("fs", feature_selector_of t)])
      ∧ (¬ has_key_with_prefix params "fs__" → selector = [])
      ∧ StronglySorted str_le tags
      ∧ NoDup tags
      ∧ ∀ tag, tag ∈ tags ↔ stacking_tag params tag.
Proof.
  intros Hsetup pp t.
  destruct (task_setup_inr _ _ _ _ _ _ Hsetup)
    as (_ & _ & Hest & Hfs & Hstck & _ & _). fold t in Hest, Hfs, Hstck.
  assert (Htags : ∀ tag, tag ∈ sorted_tags (STCK env) ↔ stacking_tag params tag).
  { intros tag. rewrite sorted_tags_elem_of, Hstck. split.
    - intros [s Hs]. by apply scan_stck_lookup in Hs as [_ ?].
    - intros Htag. exists (stacking_of t). by apply scan_stck_lookup. }
  assert (Hsteps : steps pp
    = ([("ne", NA_encoder); ("ce", Categorical_encoder)]
       ++ match fs env with Some f => [("fs", f)] | None => [] end
       ++ ((λ tag, (tag, stacking_of t)) <$> sorted_tags (STCK env))
       ++ [("est", estimator_of t)])%list).
  { assert (steps pp = pipe_steps (est env) (fs env) (STCK env)) as ->.
    { subst pp. unfold create_pipeline. by destruct (needs_caching _ _ _). }
    unfold pipe_steps. rewrite Hest.
    rewrite (stacking_steps (STCK env) (stacking_of t)).
    - destruct (fs env); simpl; by rewrite <- ?app_assoc.
    - intros tag Htag%Htags. rewrite Hstck. by apply scan_stck_lookup. }
  split.
  - intros Hnofs Hnostck. rewrite Hsteps.
    assert (fs env = None) as ->.
    { rewrite Hfs. by destruct (scan_fs_inv t params) as [[? _]|[_ ?]]. }
    assert (sorted_tags (STCK env) = []) as ->; [|done].
    destruct (sorted_tags (STCK env)) as [|tag tags] eqn:Hl; [done|].
    destruct Hnostck. apply stacking_tag_prefix. exists tag. apply Htags.
    apply list_elem_of_here.
  - exists (match fs env with Some f => [("fs", f)] | None => [] end),
      (sorted_tags (STCK env)).
    split; [done|]. rewrite Hfs.
    destruct (scan_fs_inv t params) as [[-> Hno]|[-> Hyes]];
      (split; [done|]); (split; [done|]);
      (split; [apply sorted_tags_sorted|]);
      (split; [apply sorted_tags_NoDup|done]).
Qed.

(** Runs of the three statements above on sample candidates. *)

Lemma caching_iff_expensive_stage_witness :
  ∃ env self' ws,
    task_setup (Some embedding_candidate) sample_clf default_optimiser
    = inr (env, self', ws)
    ∧ memory (create_pipeline (Some embedding_candidate) env self')
      = Some "save".
Proof.
  eexists _, _, _. split; [reflexivity|].
  apply (caching_iff_expensive_stage (Some embedding_candidate) sample_clf
           default_optimiser _ _ _ eq_refl).
  left. exists embedding_candidate. split; reflexivity.
Defined.

Lemma fs_without_strategy_adds_no_caching_witness :
  ∃ env self' ws,
    task_setup (Some threshold_candidate) sample_clf default_optimiser
    = inr (env, self', ws)
    ∧ fs env = Some Clf_feature_selector
    ∧ memory (create_pipeline (Some threshold_candidate) env self') = None.
Proof.
  eexists _, _, _. split; [reflexivity|].
  assert (Hactive : has_key_with_prefix (Some threshold_candidate) "fs__").
  { exists threshold_candidate, "fs__threshold".
    split; [reflexivity|]. split; [eexists; reflexivity|reflexivity]. }
  assert (Habsent : ∀ v, ¬ candidate_value (Some threshold_candidate)
                              "fs__strategy" v).
  { intros v (d & [= <-] & Hv). vm_compute in Hv. discriminate. }
  destruct (fs_without_strategy_adds_no_caching (Some threshold_candidate)
              sample_clf default_optimiser _ _ _ eq_refl Hactive Habsent)
    as (Hfs & _ & Hnone).
  split; [exact Hfs|]. apply Hnone.
  intros [(d & [= <-] & Hv)|(tag & d & p & [= <-] & Hp & Hpre & _)].
  - vm_compute in Hv. discriminate.
  - unfold threshold_candidate in Hp.
    apply lookup_singleton_is_Some in Hp as <-. vm_compute in Hpre. discriminate.
Defined.

Lemma pipeline_stage_order_witness :
  ∃ env self' ws,
    task_setup (Some label_encoding_candidate) sample_reg default_optimiser
    = inr (env, self', ws)
    ∧ steps (create_pipeline (Some label_encoding_candidate) env self')
      = [("ne", NA_encoder); ("ce", Categorical_encoder); ("est", Regressor)].
Proof.
  eexists _, _, _. split; [reflexivity|].
  apply (pipeline_stage_order (Some label_encoding_candidate) sample_reg
           default_optimiser _ _ _ eq_refl);
    intros (d & p & [= <-] & Hp & Hpre);
    unfold label_encoding_candidate in Hp;
    apply lookup_singleton_is_Some in Hp as <-; vm_compute in Hpre; discriminate.
Defined.

(** ** Rows of deficient classes *)

Lemma mem_label_true l ls : mem_label l ls = true ↔ l ∈ ls.
Proof.
  unfold mem_label. rewrite existsb_exists. split.
  - intros (x & Hin & ->%Z.eqb_eq). by apply list_elem_of_In.
  - intros Hin. exists l. split; [by apply list_elem_of_In|apply Z.eqb_refl].
Qed.

Lemma drop_rows_Some {A} (rows kept : list (label * A)) labels :
  drop_rows rows labels = Some kept →
  kept = List.filter (λ r, negb (mem_label (fst r) labels)) rows.
Proof. unfold drop_rows. case_match; by intros [= <-]. Qed.

Lemma drop_rows_index {A} (rows kept : list (label * A)) labels l :
  drop_rows rows labels = Some kept → l ∈ labels → l ∉ kept.*1.
Proof.
  intros ->%drop_rows_Some Hl ([l' a] & -> & Hin)%list_elem_of_fmap.
  apply list_elem_of_In, filter_In in Hin as [_ Hkeep]. simpl in *.
  apply negb_true_iff in Hkeep. apply mem_label_true in Hl. congruence.
Qed.

Lemma drop_rows_nil {A} (rows : list (label * A)) :
  drop_rows rows [] = Some rows.
Proof.
  unfold drop_rows. simpl. f_equal.
  induction rows as [|r rows IH]; simpl; [done|]. by rewrite IH.
Qed.

Lemma class_count_occ c rows :
  class_count c rows = Z.of_nat (count_occ Z.eq_dec rows.*2 c).
Proof.
  unfold class_count. f_equal.
  induction rows as [|[l c'] rows IH]; simpl; [done|].
  destruct (Z.eq_dec c' c) as [->|Hne].
  - rewrite Z.eqb_refl. simpl. by rewrite IH.
  - apply Z.eqb_neq in Hne. by rewrite Hne.
Qed.

Lemma classes_to_drop_spec rows folds c :
  c ∈ classes_to_drop rows folds
  ↔ c ∈ rows.*2 ∧ class_count c rows < folds.
Proof.
  unfold classes_to_drop, value_counts.
  rewrite list_elem_of_fmap. split.
  - intros ([c' k] & -> & Hin). apply list_elem_of_In, filter_In in Hin as [Hin Hlt].
    apply in_map_iff in Hin as (c'' & [= -> <-] & Hin). simpl in *.
    apply nodup_In, list_elem_of_In in Hin. split; [done|]. by apply Z.ltb_lt.
  - intros [Hin Hlt]. exists (c, class_count c rows). split; [done|].
    apply list_elem_of_In, filter_In. split.
    + apply in_map_iff. exists c. split; [done|].
      by apply nodup_In, list_elem_of_In.
    + by apply Z.ltb_lt.
Qed.

Lemma indexes_to_drop_clf_spec rows folds l :
  l ∈ indexes_to_drop_clf rows folds
  ↔ ∃ c, (l, c) ∈ rows ∧ class_count c rows < folds.
Proof.
  unfold indexes_to_drop_clf. rewrite list_elem_of_fmap. split.
  - intros ([l' c] & -> & Hin). apply list_elem_of_In, filter_In in Hin as [Hin Hdrop].
    exists c. split; [by apply list_elem_of_In|].
    apply existsb_exists in Hdrop as (c' & Hc' & <-%Z.eqb_eq). simpl.
    by apply list_elem_of_In, classes_to_drop_spec in Hc' as [_ ?].
  - intros (c & Hin & Hlt). exists (l, c). split; [done|].
    apply list_elem_of_In, filter_In. split; [by apply list_elem_of_In|].
    apply existsb_exists. exists c. split; [|apply Z.eqb_refl].
    apply list_elem_of_In, classes_to_drop_spec. split; [|done].
    apply list_elem_of_fmap. by exists (l, c).
Qed.

Lemma task_setup_indexes params df self env self' ws :
  task_setup params df self = inr (env, self', ws) →
  indexes_to_drop env
  = match target df with
    | IntSeries rows => indexes_to_drop_clf rows (n_folds self)
    | _ => []
    end
  ∧ cv env
    = match target df with
      | IntSeries _ => StratifiedKFold (n_folds self) true (random_state self)
      | _ => KFold (n_folds self) true (random_state self)
      end.
Proof.
  unfold task_setup.
  destruct (target df) as [rows|rows|rows]; [| |done];
    (destruct (check_n_splits (n_folds self)); [done|]);
    [destruct (default_scoring Classification (scoring self)) as [[sc a] w]
    |destruct (default_scoring Regression (scoring self)) as [[sc a] w]];
    by intros [= <- <- <-].
Qed.

(** C2. For a Classification target, the label of every row whose class
    occurs strictly fewer than [n_folds] times is absent from the features
    and from the target handed to [cross_val_score]; for a Regression target
    both are handed over whole. *)
Theorem deficient_classes_dropped `{Collaborators} params df self env self' ws
    X y :
  task_setup params df self = inr (env, self', ws) →
  drop_rows (train df) (indexes_to_drop env) = Some X →
  series_drop (target df) (indexes_to_drop env) = Some y →
  (∀ pp, cross_validate pp params df env self'
         = cross_val_score pp params X y (scoring self') (cv env))
  ∧ (∀ rows, target df = IntSeries rows →
       ∀ l c, (l, c) ∈ rows →
              Z.of_nat (count_occ Z.eq_dec rows.*2 c) < n_folds self →
              (l ∉ X.*1) ∧ (l ∉ series_index y))
  ∧ (series_dtype (target df) = dtype_float → X = train df ∧ y = target df).
Proof.
  intros Hsetup HX Hy.
  destruct (task_setup_indexes _ _ _ _ _ _ Hsetup) as [Hidx _].
  split; [|split].
  - intros pp. unfold cross_validate. by rewrite HX, Hy.
  - intros rows Hrows l c Hin Hlt. rewrite Hrows in Hidx, Hy.
    assert (Hl : l ∈ indexes_to_drop env).
    { rewrite Hidx. apply indexes_to_drop_clf_spec. exists c.
      by rewrite class_count_occ. }
    split; [by eapply drop_rows_index|].
    unfold series_drop in Hy.
    destruct (drop_rows rows (indexes_to_drop env)) as [kept|] eqn:Hk; [|done].
    injection Hy as <-. simpl. by eapply drop_rows_index.
  - intros Hfloat. destruct (target df) as [rows|rows|rows]; try done.
    rewrite Hidx in HX, Hy. rewrite drop_rows_nil in HX.
    unfold series_drop in Hy. rewrite drop_rows_nil in Hy. simpl in Hy.
    by simplify_eq.
Qed.

Lemma deficient_classes_dropped_witness :
  ∃ env self' ws X y,
    task_setup None sample_clf default_optimiser = inr (env, self', ws)
    ∧ drop_rows (train sample_clf) (indexes_to_drop env) = Some X
    ∧ series_drop (target sample_clf) (indexes_to_drop env) = Some y
    ∧ (3 ∉ X.*1) ∧ (3 ∉ series_index y).
Proof.
  eexists _, _, _, _, _.
  split; [reflexivity|]. split; [reflexivity|]. split; [reflexivity|].
  eapply (deficient_classes_dropped (H:=sample_collaborators) None sample_clf
            default_optimiser _ _ _ _ _ eq_refl eq_refl eq_refl).
  - reflexivity.
  - apply list_elem_of_In. vm_compute. tauto.
  - vm_compute. reflexivity.
Defined.

(** ** Failures inside and outside the cross-validation *)

Lemma evaluate_inr `{Collaborators} params df self env self' ws :
  task_setup params df self = inr (env, self', ws) →
  evaluate params df self = fit_and_report params df env self' ws.
Proof. unfold evaluate. by intros ->. Qed.

Lemma report_return_folds i (scores : list pyfloat) score env self ws x y rest :
  scores = x :: y :: rest →
  ev_return (report i scores score env self ws) = inr score.
Proof.
  intros ->. unfold report.
  assert (∃ init : list pyfloat, i_after_folds i (x :: y :: rest)
                  = Some (Z.of_nat (length init) - 1)) as [init ->].
  { exists (removelast (x :: y :: rest)). unfold i_after_folds.
    destruct (removelast (x :: y :: rest)) eqn:Hinit; [|done].
    simpl in Hinit. by destruct rest. }
  assert (is_Some (last (x :: y :: rest))) as [z Hz].
  { rewrite last_is_Some. done. }
  rewrite Hz. simpl. by destruct (verbose _).
Qed.

(** C4. When cross-validation raises, on a candidate that the pipeline
    accepted, [evaluate] returns normally: the value returned is [-inf], the
    fold scores are [n_folds] times [-inf], and the failure is signalled by
    the warning about the mean score. *)
Theorem cv_failure_scored_neg_inf `{Collaborators} params df self env self' ws :
  task_setup params df self = inr (env, self', ws) →
  (∀ d, params = Some d →
        set_params_ok (create_pipeline params env self') d = true) →
  cross_validate (create_pipeline params env self') params df env self' = None →
  let r := evaluate params df self in
  ev_return r = inr NegInf
  ∧ (∃ scores, ev_scores r = Some scores
               ∧ Z.of_nat (length scores) = n_folds self
               ∧ Forall (eq NegInf) scores)
  ∧ Warn "An error occurred while computing the cross validation mean score. Check the parameter values and your scoring function."
    ∈ ev_warnings r.
Proof.
  intros Hsetup Hset Hcv r. subst r. rewrite (evaluate_inr _ _ _ _ _ _ Hsetup).
  destruct (task_setup_inr _ _ _ _ _ _ Hsetup) as (Hn & _ & _ & _ & _ & _ & Hself).
  assert (Hfolds : n_folds self' = n_folds self) by (by rewrite Hself).
  unfold fit_and_report.
  assert (match params with
          | Some d => set_params_ok (create_pipeline params env self') d
          | None => true
          end = true) as ->.
  { destruct params as [d|]; [|done]. by apply Hset. }
  rewrite Hcv. cbn [is_neg_inf]. rewrite Hfolds.
  destruct (Z.to_nat (n_folds self)) as [|[|n]] eqn:Hnat; [lia|lia|].
  split; [|split].
  - by eapply report_return_folds.
  - eexists. split; [done|]. split.
    + rewrite length_replicate. lia.
    + apply Forall_forall. by intros x [-> _]%elem_of_replicate.
  - simpl. set_solver.
Qed.

(** C5. When the pipeline refuses a candidate that is not [None],
    [evaluate] raises the [ValueError] of line 425 and binds no score; the
    objective handed to the sampler raises it too, instead of returning a
    sentinel loss. *)
Theorem rejected_candidate_raises `{Collaborators} d df self env self' ws :
  task_setup (Some d) df self = inr (env, self', ws) →
  set_params_ok (create_pipeline (Some d) env self') d = false →
  let r := evaluate (Some d) df self in
  let err := ValueError "Pipeline cannot be set with these parameters. Check the name of your stages." in
  ev_return r = inl err
  ∧ ev_scores r = None
  ∧ (hyperopt_objective df d self).1 = inl err.
Proof.
  intros Hsetup Hset r err.
  assert (Hr : r = {| ev_return := inl err; ev_self := self';
                      ev_scores := None; ev_warnings := ws |}).
  { subst r. rewrite (evaluate_inr _ _ _ _ _ _ Hsetup).
    unfold fit_and_report. by rewrite Hset. }
  split; [by rewrite Hr|]. split; [by rewrite Hr|].
  unfold hyperopt_objective. fold r. by rewrite Hr.
Qed.

(** C8. A target of dtype ['int'] gives the Classification task with a
    stratified splitter, a target of dtype ['float'] the Regression task with
    a plain one (scikit-learn wants two folds at least), and on any other
    dtype [evaluate] raises the [ValueError] of line 295, leaving [self] as
    it was and binding nothing else. *)
Theorem task_from_target_dtype `{Collaborators} params df self :
  match series_dtype (target df) with
  | dtype_int =>
      2 <= n_folds self →
      ∃ env self' ws,
        task_setup params df self = inr (env, self', ws)
        ∧ te_task env = Classification
        ∧ cv env = StratifiedKFold (n_folds self) true (random_state self)
        ∧ est env = Classifier
  | dtype_float =>
      2 <= n_folds self →
      ∃ env self' ws,
        task_setup params df self = inr (env, self', ws)
        ∧ te_task env = Regression
        ∧ cv env = KFold (n_folds self) true (random_state self)
        ∧ est env = Regressor
  | dtype_other =>
      evaluate params df self
      = {| ev_return := inl (ValueError "Impossible to determine the task. Please check that your target is encoded.");
           ev_self := self; ev_scores := None; ev_warnings := [] |}
  end.
Proof.
  unfold evaluate, task_setup, check_n_splits.
  destruct (target df) as [rows|rows|rows]; cbn [series_dtype]; [| |done];
    intros Hn;
    (destruct (n_folds self <=? 1) eqn:Hle; [apply Z.leb_le in Hle; lia|]);
    [destruct (default_scoring Classification (scoring self)) as [[sc a] w]
    |destruct (default_scoring Regression (scoring self)) as [[sc a] w]];
    (eexists _, _, _; split; [reflexivity|done]).
Qed.

Lemma cv_failure_scored_neg_inf_witness :
  ev_return (evaluate (H:=sample_collaborators) None sample_empty
               default_optimiser) = inr NegInf
  ∧ ev_scores (evaluate (H:=sample_collaborators) None sample_empty
                 default_optimiser) = Some [NegInf; NegInf].
Proof.
  destruct (cv_failure_scored_neg_inf (H:=sample_collaborators) None
              sample_empty default_optimiser _ _ _ eq_refl
              ltac:(intros d; discriminate) eq_refl)
    as (Hret & _ & _).
  split; [exact Hret|reflexivity].
Defined.

Lemma rejected_candidate_raises_witness :
  ev_return (evaluate (H:=sample_collaborators) (Some misnamed_candidate)
               sample_clf default_optimiser)
  = inl (ValueError "Pipeline cannot be set with these parameters. Check the name of your stages.").
Proof.
  apply (rejected_candidate_raises (H:=sample_collaborators) misnamed_candidate
           sample_clf default_optimiser _ _ _ eq_refl eq_refl).
Defined.

(** ** The optimiser after a call *)

Lemma default_scoring_final t sc sc' a w :
  default_scoring t sc = (sc', a, w) →
  (if a then ScoringStr "roc_auc" else sc')
  = match sc with
    | ScoringNone => ScoringStr (default_scoring_name t)
    | ScoringStr s =>
        if str_in s (recognised_scorings t) then ScoringStr s
        else ScoringStr (default_scoring_name t)
    | ScoringCallable c => ScoringCallable c
    end.
Proof.
  destruct t, sc as [|s|c]; cbn [default_scoring recognised_scorings
                                  default_scoring_name].
  - by intros [= <- <- <-].
  - destruct (String.eqb s "roc_auc") eqn:Hroc.
    + apply String.eqb_eq in Hroc as ->. by intros [= <- <- <-].
    + destruct (str_in s clf_scorings); by intros [= <- <- <-].
  - by intros [= <- <- <-].
  - by intros [= <- <- <-].
  - destruct (str_in s reg_scorings); by intros [= <- <- <-].
  - by intros [= <- <- <-].
Qed.

Lemma default_scoring_idem t sc sc' a w :
  default_scoring t sc = (sc', a, w) →
  default_scoring t sc' = (sc', false, []).
Proof.
  destruct t, sc as [|s|c]; cbn [default_scoring].
  - by intros [= <- <- <-].
  - destruct (String.eqb s "roc_auc") eqn:Hroc; [by intros [= <- <- <-]|].
    destruct (str_in s clf_scorings) eqn:Hin; intros [= <- <- <-];
      cbn [default_scoring]; [by rewrite Hroc, Hin|done].
  - by intros [= <- <- <-].
  - by intros [= <- <- <-].
  - destruct (str_in s reg_scorings) eqn:Hin; intros [= <- <- <-];
      cbn [default_scoring]; [by rewrite Hin|done].
  - by intros [= <- <- <-].
Qed.

Lemma default_scoring_auc t sc sc' w :
  default_scoring t sc = (sc', true, w) → sc = ScoringStr "roc_auc".
Proof.
  destruct t, sc as [|s|c]; cbn [default_scoring]; try by intros [=].
  - destruct (String.eqb s "roc_auc") eqn:Hroc.
    + by apply String.eqb_eq in Hroc as ->.
    + by destruct (str_in s clf_scorings).
  - by destruct (str_in s reg_scorings).
Qed.

Lemma ev_self_report i scores score env self ws :
  ev_self (report i scores score env self ws)
  = if auc env then set_scoring self (ScoringStr "roc_auc") else self.
Proof. done. Qed.

(** Where [fit_and_report] leaves [self]. *)
Lemma fit_and_report_self `{Collaborators} params df env self ws :
  ev_self (fit_and_report params df env self ws) = self
  ∨ (auc env = true
     ∧ ev_self (fit_and_report params df env self ws)
       = set_scoring self (ScoringStr "roc_auc")).
Proof.
  unfold fit_and_report.
  destruct (match params with Some d => _ | None => true end); [|by left].
  destruct (cross_validate _ _ _ _ _); rewrite ev_self_report;
    destruct (auc env); auto.
Qed.

Lemma fit_and_report_returned `{Collaborators} params df env self ws score :
  ev_return (fit_and_report params df env self ws) = inr score →
  ev_self (fit_and_report params df env self ws)
  = if auc env then set_scoring self (ScoringStr "roc_auc") else self.
Proof.
  unfold fit_and_report.
  destruct (match params with Some d => _ | None => true end); [|done].
  intros _. destruct (cross_validate _ _ _ _ _); by rewrite ev_self_report.
Qed.

(** The value returned does not depend on [auc] nor on the warnings met so
    far. *)
Lemma fit_and_report_return `{Collaborators} params df t idx c e f S a a' self
    ws ws' :
  ev_return (fit_and_report params df (mkTaskEnv t idx c e f S a) self ws)
  = ev_return (fit_and_report params df (mkTaskEnv t idx c e f S a') self ws').
Proof.
  unfold fit_and_report, create_pipeline, cross_validate, i_after_listing.
  cbn [est fs STCK indexes_to_drop cv auc].
  destruct (match params with Some d => _ | None => true end); [|done].
  destruct (_ ≫= _) as [scores|]; unfold report; cbn [auc ev_return];
    by destruct a, a'.
Qed.

(** A second run of the task branch, on the optimiser left by the first. *)
Lemma task_setup_again params df self env self' ws :
  task_setup params df self = inr (env, self', ws) →
  task_setup params df self'
  = inr (mkTaskEnv (te_task env) (indexes_to_drop env) (cv env) (est env)
           (fs env) (STCK env) false, self', []).
Proof.
  unfold task_setup.
  destruct (target df) as [rows|rows|rows]; [| |done];
    (destruct (check_n_splits (n_folds self)) eqn:Hcheck; [done|]);
    [destruct (default_scoring Classification (scoring self)) as [[sc a] w] eqn:Hsc
    |destruct (default_scoring Regression (scoring self)) as [[sc a] w] eqn:Hsc];
    intros [= <- <- <-];
    cbn [n_folds random_state scoring set_scoring te_task indexes_to_drop cv
         est fs STCK];
    rewrite Hcheck, (default_scoring_idem _ _ _ _ _ Hsc); done.
Qed.

(** X19. What a call does to [self.scoring] is done once: a second call with
    the same candidate and data, on the optimiser as the first call left it,
    leaves that optimiser as it is and returns or raises what the first did.
    The collaborators are taken as functions of their arguments, so that
    this is about the state that [evaluate] itself threads, not about the
    randomness of splitting and fitting. *)
Theorem second_call_is_idle `{Collaborators} params df self :
  let first := evaluate params df self in
  let second := evaluate params df (ev_self first) in
  ev_self second = ev_self first
  ∧ ev_return second = ev_return first.
Proof.
  intros first second. subst second first.
  destruct (task_setup params df self) as [err|[[env self1] ws]] eqn:Hsetup.
  { assert (evaluate params df self
            = {| ev_return := inl err; ev_self := self; ev_scores := None;
                 ev_warnings := [] |}) as Hfirst
      by (unfold evaluate; by rewrite Hsetup).
    rewrite Hfirst. cbn [ev_self ev_return]. by rewrite Hfirst. }
  rewrite (evaluate_inr _ _ _ _ _ _ Hsetup).
  destruct (fit_and_report_self params df env self1 ws) as [Hleft|[Hauc Hleft]];
    rewrite Hleft.
  - rewrite (evaluate_inr _ _ _ _ _ _ (task_setup_again _ _ _ _ _ _ Hsetup)).
    split.
    + destruct (fit_and_report_self params df
                  (mkTaskEnv (te_task env) (indexes_to_drop env) (cv env)
                     (est env) (fs env) (STCK env) false) self1 [])
        as [->|[Hno _]]; [done|discriminate].
    + destruct env. apply fit_and_report_return.
  - destruct (task_setup_inr _ _ _ _ _ _ Hsetup)
      as (_ & _ & _ & _ & _ & Hsc & Hself).
    rewrite Hauc in Hsc. apply default_scoring_auc in Hsc.
    assert (set_scoring self1 (ScoringStr "roc_auc") = self) as Hback.
    { rewrite Hself. destruct self. simpl in *. by rewrite Hsc. }
    rewrite Hback, (evaluate_inr _ _ _ _ _ _ Hsetup).
    split; [by rewrite Hleft, Hback|done].
Qed.

(** C7 as stated fails: a call that returns may leave [scoring] changed
    (here [None] becomes ["log_loss"]). *)
Lemma evaluate_rewrites_scoring :
  ¬ (∀ (H : Collaborators) params df self score,
       ev_return (evaluate params df self) = inr score →
       let self' := ev_self (evaluate params df self) in
       scoring self' = scoring self ∧ n_folds self' = n_folds self
       ∧ random_state self' = random_state self
       ∧ to_path self' = to_path self ∧ verbose self' = verbose self).
Proof.
  intros Hall.
  destruct (Hall sample_collaborators None sample_clf default_optimiser
              (Finite (-1) 0) eq_refl) as [Hscoring _].
  vm_compute in Hscoring. discriminate.
Qed.

(** C7, amended. After [evaluate] returns, [n_folds], [random_state],
    [to_path] and [verbose] are as before; [scoring] is as before when it was
    a callable or a name listed for the task of the data (["roc_auc"]
    included, for Classification), and is the default name of that task when
    it was [None] or a name that is not listed. *)
Theorem evaluate_keeps_configuration `{Collaborators} params df self score :
  ev_return (evaluate params df self) = inr score →
  let self' := ev_self (evaluate params df self) in
  n_folds self' = n_folds self
  ∧ random_state self' = random_state self
  ∧ to_path self' = to_path self
  ∧ verbose self' = verbose self
  ∧ ∃ t, task_of_dtype (series_dtype (target df)) = Some t
         ∧ scoring self'
           = match scoring self with
             | ScoringNone => ScoringStr (default_scoring_name t)
             | ScoringStr s =>
                 if str_in s (recognised_scorings t) then ScoringStr s
                 else ScoringStr (default_scoring_name t)
             | ScoringCallable c => ScoringCallable c
             end.
Proof.
  destruct (task_setup params df self) as [err|[[env self1] ws]] eqn:Hsetup.
  { unfold evaluate. by rewrite Hsetup. }
  rewrite (evaluate_inr _ _ _ _ _ _ Hsetup). intros Hret self'. subst self'.
  rewrite (fit_and_report_returned _ _ _ _ _ _ Hret).
  destruct (task_setup_inr _ _ _ _ _ _ Hsetup)
    as (_ & Htask & _ & _ & _ & Hsc & Hself).
  apply default_scoring_final in Hsc.
  rewrite Hself. destruct (auc env); cbn [set_scoring n_folds random_state
                                           to_path verbose scoring];
    (repeat split; [exists (te_task env); split; [done|]]);
    rewrite <- Hsc; done.
Qed.

Lemma evaluate_keeps_configuration_witness :
  scoring (ev_self (evaluate (H:=sample_collaborators) None sample_clf
                      default_optimiser)) = ScoringStr "log_loss"
  ∧ n_folds (ev_self (evaluate (H:=sample_collaborators) None sample_clf
                        default_optimiser)) = 2.
Proof.
  destruct (evaluate_keeps_configuration (H:=sample_collaborators) None
              sample_clf default_optimiser (Finite (-1) 0) eq_refl)
    as (Hfolds & _ & _ & _ & t & Ht & Hscoring).
  split; [|exact Hfolds].
  injection Ht as <-. exact Hscoring.
Defined.

(** ** The dictionary returned by [optimise] *)

Lemma py_getitem_index vals i :
  0 <= i < Z.of_nat (length vals) →
  ∃ x, py_getitem vals (PyInt i) = inr x
       ∧ vals !! Z.to_nat i = Some x ∧ x ∈ vals.
Proof.
  intros Hi. unfold py_getitem.
  assert ((i <? 0) = false) as -> by lia.
  assert ((0 <=? i) && (i <? Z.of_nat (length vals)) = true) as ->.
  { apply andb_true_iff. lia. }
  destruct (vals !! Z.to_nat i) as [x|] eqn:Hx.
  - exists x. split; [done|]. split; [done|]. by eapply list_elem_of_lookup_2.
  - apply lookup_ge_None in Hx. lia.
Qed.

(** What one turn of the translation loop does to an entry that the sampler
    answered as promised. *)
Lemma translate_entry_answer space p v e :
  dict_get space p = Some e →
  (is_choice e → ∃ i vals, v = PyInt i ∧ space_values e = Some vals
                           ∧ 0 <= i < Z.of_nat (length vals)) →
  ∃ v', translate_entry space p v = inr v'
        ∧ (is_choice e → ∃ i vals, v = PyInt i ∧ space_values e = Some vals
                                   ∧ vals !! Z.to_nat i = Some v' ∧ v' ∈ vals)
        ∧ (is_uniform e → v' = v).
Proof.
  intros Hget Hanswer. unfold translate_entry. rewrite Hget.
  assert (Hchoice : is_choice e →
            ∃ v', choice_value e v = inr v'
                  ∧ ∃ i vals, v = PyInt i ∧ space_values e = Some vals
                              ∧ vals !! Z.to_nat i = Some v' ∧ v' ∈ vals).
  { intros (i & vals & -> & Hvals & Hi)%Hanswer.
    destruct (py_getitem_index vals i Hi) as (x & Hx & Hlook & Hin).
    exists x. unfold choice_value. rewrite Hvals. split; [done|].
    by exists i, vals. }
  destruct (search e) as [s|] eqn:Hs.
  - destruct (py_eq_str s "choice") eqn:Hc.
    + apply py_eq_str_true in Hc as ->.
      destruct Hchoice as (v' & -> & Hv'); [by right|].
      exists v'. split; [done|]. split; [done|].
      unfold is_uniform. rewrite Hs. by intros [=].
    + exists v. split; [done|]. split; [|done].
      apply py_eq_str_false in Hc. unfold is_choice. rewrite Hs.
      intros [[=]|[= ->]]. done.
  - destruct Hchoice as (v' & -> & Hv'); [by left|].
    exists v'. split; [done|]. split; [done|].
    unfold is_uniform. rewrite Hs. by intros [=].
Qed.

(** C3. On a non-empty space that [hyper_space_of] accepts, when the sampler
    answers as hyperopt promises, [optimise] returns a dictionary with the
    sampler's keys in which every key whose strategy is "choice", given or
    by default, holds the element of its declared values at the sampled
    index, hence one of the declared values, and every key whose strategy
    is "uniform" holds the sampled value unchanged. *)
Theorem best_params_translated `{Collaborators} space df max_evals self
    hyper_space best self' :
  space ≠ [] →
  hyper_space_of space = inr hyper_space →
  fmin (hyperopt_objective df) hyper_space max_evals self = (inr best, self') →
  sampler_answer space best →
  ∃ out,
    optimise (Some space) df max_evals self = (inr out, self', [])
    ∧ Forall2 (λ pv pv',
         pv'.1 = pv.1
         ∧ ∃ e, dict_get space pv.1 = Some e
                ∧ (is_choice e →
                   ∃ i vals, pv.2 = PyInt i ∧ space_values e = Some vals
                             ∧ vals !! Z.to_nat i = Some pv'.2 ∧ pv'.2 ∈ vals)
                ∧ (is_uniform e → pv'.2 = pv.2))
        best out.
Proof.
  intros Hne Hspace Hfmin Hanswer.
  assert (Htrans : ∃ out, translate_best space best = inr out
    ∧ Forall2 (λ pv pv',
         pv'.1 = pv.1
         ∧ ∃ e, dict_get space pv.1 = Some e
                ∧ (is_choice e →
                   ∃ i vals, pv.2 = PyInt i ∧ space_values e = Some vals
                             ∧ vals !! Z.to_nat i = Some pv'.2 ∧ pv'.2 ∈ vals)
                ∧ (is_uniform e → pv'.2 = pv.2))
        best out).
  { clear Hfmin. induction Hanswer as [|[p v] best (e & Hget & Hidx) _ IH].
    - exists []. by split.
    - destruct IH as (out & Hout & Hall).
      destruct (translate_entry_answer space p v e Hget Hidx)
        as (v' & Hv' & Hc & Hu).
      exists ((p, v') :: out). cbn [translate_best]. rewrite Hv', Hout.
      split; [done|]. constructor; [|done]. split; [done|]. by exists e. }
  destruct Htrans as (out & Hout & Hall). exists out. split; [|done].
  unfold optimise. destruct space as [|entry space']; [done|].
  cbn [length Nat.eqb]. rewrite Hspace, Hfmin. by rewrite Hout.
Qed.

Lemma best_params_translated_witness :
  ∃ out,
    optimise (H:=sample_collaborators) (Some sample_space) sample_clf 5
      default_optimiser = (inr out, default_optimiser, [])
    ∧ out.*1 = ["est__max_depth"; "ne__numerical_strategy"; "est__subsample"].
Proof.
  assert (Hanswer : sampler_answer sample_space
            [("est__max_depth", PyInt 0); ("ne__numerical_strategy", PyInt 0);
             ("est__subsample", PyFloat (Finite 1 (-1)))]).
  { repeat constructor.
    - eexists. split; [reflexivity|]. intros _.
      exists 0, [PyInt 3; PyInt 5; PyInt 7]. repeat split; simpl; lia.
    - eexists. split; [reflexivity|]. intros _.
      exists 0, [PyInt 0; PyStr "mean"]. repeat split; simpl; lia.
    - eexists. split; [reflexivity|]. intros [[=]|[=]]. }
  destruct (best_params_translated (H:=sample_collaborators) sample_space
              sample_clf 5 default_optimiser _ _ _ ltac:(discriminate)
              eq_refl eq_refl Hanswer)
    as (out & Hopt & Hall).
  exists out. split; [exact Hopt|].
  vm_compute in Hopt. by injection Hopt as <-.
Defined.

(** ** The scenarios of the caching rule, run *)

Example embedding_is_cached :
  ∃ env self' ws,
    task_setup (Some embedding_candidate) sample_clf default_optimiser
    = inr (env, self', ws)
    ∧ create_pipeline (Some embedding_candidate) env self'
      = {| steps := [("ne", NA_encoder); ("ce", Categorical_encoder);
                     ("est", Classifier)];
           memory := Some "save" |}.
Proof. eexists _, _, _. split; reflexivity. Qed.

Example label_encoding_is_not_cached :
  ∃ env self' ws,
    task_setup (Some label_encoding_candidate) sample_clf default_optimiser
    = inr (env, self', ws)
    ∧ create_pipeline (Some label_encoding_candidate) env self'
      = {| steps := [("ne", NA_encoder); ("ce", Categorical_encoder);
                     ("est", Classifier)];
           memory := None |}.
Proof. eexists _, _, _. split; reflexivity. Qed.

Example stacked_pipeline :
  ∃ env self' ws,
    task_setup (Some sample_candidate) sample_clf default_optimiser
    = inr (env, self', ws)
    ∧ create_pipeline (Some sample_candidate) env self'
      = {| steps := [("ne", NA_encoder); ("ce", Categorical_encoder);
                     ("fs", Clf_feature_selector);
                     ("stck1", StackingClassifier);
                     ("stck2", StackingClassifier); ("est", Classifier)];
           memory := Some "save" |}.
Proof. eexists _, _, _. split; reflexivity. Qed.

(** ** A target that is neither integer nor float, run *)

Example string_target_is_refused :
  ev_return (evaluate (H:=sample_collaborators) None sample_str
               default_optimiser)
  = inl (ValueError "Impossible to determine the task. Please check that your target is encoded.").
Proof. reflexivity. Qed.

(** ** [get_params] and [set_params] *)

Lemma get_params_lookup obj known k :
  get_params obj = Some known →
  known !! k = if str_in k param_names then obj !! k else None.
Proof.
  unfold get_params.
  destruct (obj !! "scoring") as [sc|] eqn:Hsc; [|done].
  destruct (obj !! "n_folds") as [nf|] eqn:Hnf; [|done].
  destruct (obj !! "random_state") as [rs|] eqn:Hrs; [|done].
  destruct (obj !! "to_path") as [tp|] eqn:Htp; [|done].
  destruct (obj !! "verbose") as [vb|] eqn:Hvb; [|done].
  intros [= <-]. cbn [mbind option_bind list_to_map foldr uncurry str_in param_names existsb].
  destruct (String.eqb_spec k "scoring") as [->|H1];
    [by rewrite lookup_insert_eq|rewrite lookup_insert_ne by done].
  destruct (String.eqb_spec k "n_folds") as [->|H2];
    [by rewrite lookup_insert_eq|rewrite lookup_insert_ne by done].
  destruct (String.eqb_spec k "random_state") as [->|H3];
    [by rewrite lookup_insert_eq|rewrite lookup_insert_ne by done].
  destruct (String.eqb_spec k "to_path") as [->|H4];
    [by rewrite lookup_insert_eq|rewrite lookup_insert_ne by done].
  destruct (String.eqb_spec k "verbose") as [->|H5];
    [by rewrite lookup_insert_eq|rewrite lookup_insert_ne by done].
  done.
Qed.

Lemma get_params_is_Some obj :
  (∀ k, str_in k param_names = true → is_Some (obj !! k)) →
  is_Some (get_params obj).
Proof.
  intros Hall. unfold get_params.
  destruct (Hall "scoring" eq_refl) as [sc ->].
  destruct (Hall "n_folds" eq_refl) as [nf ->].
  destruct (Hall "random_state" eq_refl) as [rs ->].
  destruct (Hall "to_path" eq_refl) as [tp ->].
  destruct (Hall "verbose" eq_refl) as [vb ->]. by eexists.
Qed.

Lemma get_params_attributes obj known k :
  get_params obj = Some known → str_in k param_names = true →
  is_Some (obj !! k).
Proof.
  unfold get_params.
  destruct (obj !! "scoring") as [sc|] eqn:Hsc; [|done].
  destruct (obj !! "n_folds") as [nf|] eqn:Hnf; [|done].
  destruct (obj !! "random_state") as [rs|] eqn:Hrs; [|done].
  destruct (obj !! "to_path") as [tp|] eqn:Htp; [|done].
  destruct (obj !! "verbose") as [vb|] eqn:Hvb; [|done].
  intros _. cbn [str_in param_names existsb].
  destruct (String.eqb_spec k "scoring") as [->|_]; [by eexists|].
  destruct (String.eqb_spec k "n_folds") as [->|_]; [by eexists|].
  destruct (String.eqb_spec k "random_state") as [->|_]; [by eexists|].
  destruct (String.eqb_spec k "to_path") as [->|_]; [by eexists|].
  destruct (String.eqb_spec k "verbose") as [->|_]; [by eexists|]. done.
Qed.

(** The loop of [set_params], on an instance that has the five attributes:
    what it stores and how often it warns. *)
Lemma set_params_fold obj0 (params : gmap string pyval) :
  is_Some (get_params obj0) →
  ∃ obj ws,
    map_fold set_param (Some (obj0, [])) params = Some (obj, ws)
    ∧ (∀ k, obj !! k
            = if str_in k param_names
              then match params !! k with
                   | Some v => Some v
                   | None => obj0 !! k
                   end
              else obj0 !! k)
    ∧ length ws
      = size (filter (λ kv, str_in kv.1 param_names = false) params)
    ∧ Forall (eq invalid_parameter_warning) ws.
Proof.
  intros [known0 Hknown0].
  apply (map_fold_weak_ind (λ r (m : gmap string pyval),
    ∃ obj ws, r = Some (obj, ws)
      ∧ (∀ k, obj !! k
              = if str_in k param_names
                then match m !! k with Some v => Some v | None => obj0 !! k end
                else obj0 !! k)
      ∧ length ws = size (filter (λ kv, str_in kv.1 param_names = false) m)
      ∧ Forall (eq invalid_parameter_warning) ws)).
  - exists obj0, []. split; [done|]. split; [|split; [|done]].
    + intros k. rewrite lookup_empty. by destruct (str_in k param_names).
    + by rewrite map_filter_empty, map_size_empty.
  - intros i x m r Hfresh (obj & ws & -> & Hobj & Hlen & Hws).
    assert (is_Some (get_params obj)) as [known Hknown].
    { apply get_params_is_Some. intros k Hk. rewrite Hobj, Hk.
      destruct (m !! k); [done|]. by eapply get_params_attributes. }
    cbn [set_param mbind option_bind]. rewrite Hknown. cbn [mbind option_bind].
    rewrite (get_params_lookup _ _ i Hknown).
    destruct (str_in i param_names) eqn:Hi.
    + assert (is_Some (obj !! i)) as [y ->]
        by (by eapply get_params_attributes).
      exists (<[i:=x]> obj), ws. split; [done|]. split; [|split; [|done]].
      * intros k. destruct (decide (i = k)) as [<-|Hne].
        -- by rewrite !lookup_insert_eq, Hi.
        -- by rewrite !lookup_insert_ne, Hobj.
      * rewrite map_filter_insert_False, delete_id; [done|done|].
        intros Hfalse. cbn [fst] in Hfalse. congruence.
    + exists obj, (ws ++ [invalid_parameter_warning])%list.
      split; [done|]. split; [|split].
      * intros k. rewrite Hobj. destruct (str_in k param_names) eqn:Hk; [|done].
        rewrite lookup_insert_ne; [done|]. intros ->. congruence.
      * rewrite map_filter_insert_True by exact Hi.
        rewrite map_size_insert_None.
        -- rewrite length_app, Hlen. cbn [length]. lia.
        -- apply map_lookup_filter_None. by left.
      * apply Forall_app. split; [done|]. by constructor.
Qed.

Lemma get_params_fitOK obj v :
  is_Some (get_params obj) →
  is_Some (get_params (<["_Optimiser__fitOK" := v]> obj)).
Proof.
  intros [known Hknown]. apply get_params_is_Some. intros k Hk.
  rewrite lookup_insert_ne.
  - by eapply get_params_attributes.
  - intros <-. done.
Qed.

(** X1. On an instance that has its five attributes, [set_params] followed
    by [get_params] gives, for each of the five names, the value passed to
    [set_params] when there is one and the former value otherwise; no other
    name appears. *)
Theorem set_params_then_get_params params obj before :
  get_params obj = Some before →
  ∃ obj' ws after,
    set_params params obj = Some (obj', ws)
    ∧ get_params obj' = Some after
    ∧ ∀ k, after !! k
           = if str_in k param_names
             then match params !! k with
                  | Some v => Some v
                  | None => before !! k
                  end
             else None.
Proof.
  intros Hbefore. unfold set_params.
  destruct (set_params_fold (<["_Optimiser__fitOK" := PyBool false]> obj) params)
    as (obj' & ws & Hfold & Hobj' & _ & _).
  { apply get_params_fitOK. by eexists. }
  assert (is_Some (get_params obj')) as [after Hafter].
  { apply get_params_is_Some. intros k Hk. rewrite Hobj', Hk.
    destruct (params !! k); [done|]. rewrite lookup_insert_ne.
    - by eapply get_params_attributes.
    - intros <-. done. }
  exists obj', ws, after. split; [done|]. split; [done|].
  intros k. rewrite (get_params_lookup _ _ k Hafter), Hobj'.
  destruct (str_in k param_names) eqn:Hk; [|done].
  destruct (params !! k); [done|].
  rewrite (get_params_lookup _ _ k Hbefore), Hk.
  rewrite lookup_insert_ne; [done|]. intros <-. done.
Qed.

(** X2. [set_params] warns once for every keyword that is not one of the
    five names, always with the same text, stores none of them, resets the
    private flag [__fitOK], and leaves every other attribute alone. *)
Theorem set_params_ignores_unknown params obj before :
  get_params obj = Some before →
  ∃ obj' ws,
    set_params params obj = Some (obj', ws)
    ∧ length ws
      = size (filter (λ kv, str_in kv.1 param_names = false) params)
    ∧ Forall (eq invalid_parameter_warning) ws
    ∧ obj' !! "_Optimiser__fitOK" = Some (PyBool false)
    ∧ ∀ k, str_in k param_names = false → k ≠ "_Optimiser__fitOK" →
           obj' !! k = obj !! k.
Proof.
  intros Hbefore. unfold set_params.
  destruct (set_params_fold (<["_Optimiser__fitOK" := PyBool false]> obj) params)
    as (obj' & ws & Hfold & Hobj' & Hlen & Hws).
  { apply get_params_fitOK. by eexists. }
  exists obj', ws. split; [done|]. split; [done|]. split; [done|]. split.
  - rewrite Hobj'. cbn [str_in param_names existsb String.eqb Ascii.eqb orb].
    by rewrite lookup_insert_eq.
  - intros k Hk Hne. by rewrite Hobj', Hk, lookup_insert_ne.
Qed.

(** X3. Feeding the result of [get_params] back to [set_params] warns about
    nothing and leaves [get_params] as it was. *)
Theorem set_params_get_params_round_trip obj known :
  get_params obj = Some known →
  ∃ obj', set_params known obj = Some (obj', [])
          ∧ get_params obj' = Some known.
Proof.
  intros Hknown. unfold set_params.
  destruct (set_params_fold (<["_Optimiser__fitOK" := PyBool false]> obj) known)
    as (obj' & ws & Hfold & Hobj' & Hlen & _).
  { apply get_params_fitOK. by eexists. }
  assert (ws = []) as ->.
  { apply nil_length_inv. rewrite Hlen. apply map_size_empty_iff, map_empty.
    intros k. apply map_lookup_filter_None.
    destruct (known !! k) as [v|] eqn:Hv; [right|by left].
    intros v' [= <-]. cbn [fst].
    rewrite (get_params_lookup _ _ k Hknown) in Hv.
    by destruct (str_in k param_names). }
  exists obj'. split; [done|].
  assert (is_Some (get_params obj')) as [after Hafter].
  { apply get_params_is_Some. intros k Hk. rewrite Hobj', Hk.
    destruct (known !! k) as [v|] eqn:Hv; [done|].
    rewrite (get_params_lookup _ _ k Hknown), Hk in Hv.
    destruct (get_params_attributes _ _ k Hknown Hk) as [? ?]. congruence. }
  rewrite Hafter. f_equal. apply map_eq. intros k.
  rewrite (get_params_lookup _ _ k Hafter), Hobj'.
  destruct (str_in k param_names) eqn:Hk.
  - destruct (known !! k) as [v|] eqn:Hv; [done|].
    rewrite (get_params_lookup _ _ k Hknown), Hk in Hv.
    destruct (get_params_attributes _ _ k Hknown Hk) as [? ?]. congruence.
  - by rewrite (get_params_lookup _ _ k Hknown), Hk.
Qed.

Lemma set_params_then_get_params_witness :
  ∃ obj' ws after,
    set_params sample_kwargs sample_instance = Some (obj', ws)
    ∧ get_params obj' = Some after
    ∧ after !! "n_folds" = Some (PyInt 5)
    ∧ after !! "scoring" = Some PyNone
    ∧ after !! "n_fold" = None.
Proof.
  destruct (set_params_then_get_params sample_kwargs sample_instance _ eq_refl)
    as (obj' & ws & after & Hset & Hget & Hafter).
  exists obj', ws, after. split; [exact Hset|]. split; [exact Hget|].
  rewrite !Hafter. repeat split; reflexivity.
Defined.

Lemma set_params_ignores_unknown_witness :
  ∃ obj' ws,
    set_params sample_kwargs sample_instance = Some (obj', ws)
    ∧ length ws = 1%nat
    ∧ obj' !! "n_fold" = None.
Proof.
  destruct (set_params_ignores_unknown sample_kwargs sample_instance _ eq_refl)
    as (obj' & ws & Hset & Hlen & _ & _ & Hother).
  exists obj', ws. split; [exact Hset|]. split.
  - rewrite Hlen. reflexivity.
  - rewrite Hother; [reflexivity|reflexivity|discriminate].
Defined.

Lemma set_params_get_params_round_trip_witness :
  ∃ known obj',
    get_params sample_instance = Some known
    ∧ set_params known sample_instance = Some (obj', [])
    ∧ get_params obj' = Some known.
Proof.
  eexists.
  destruct (set_params_get_params_round_trip sample_instance _ eq_refl)
    as (obj' & Hset & Hget).
  exists obj'. split; [reflexivity|]. split; [exact Hset|exact Hget].
Defined.

(** ** The sampler space built by [optimise] *)

Lemma hyper_entry_mirrors `{Collaborators} p e h :
  hyper_entry p e = inr h → mirrors (p, e) (p, h).
Proof.
  unfold hyper_entry, mirrors, is_choice, is_uniform. cbn [fst snd].
  destruct (space_values e) as [vals|]; [|done].
  destruct (search e) as [s|].
  - destruct (py_eq_str s "uniform") eqn:Hu.
    + apply py_eq_str_true in Hu as ->.
      destruct (head (np_sort vals)) as [lo|] eqn:Hlo; [|done].
      destruct (last (np_sort vals)) as [hi|] eqn:Hhi; [|done].
      intros [= <-]. repeat split. by exists vals.
    + destruct (py_eq_str s "choice") eqn:Hc; [|done].
      apply py_eq_str_true in Hc as ->. intros [= <-]. repeat split. by right.
  - intros [= <-]. repeat split. by left.
Qed.

Lemma hyper_space_mirrors_aux `{Collaborators} space hyper_space :
  hyper_space_of space = inr hyper_space →
  Forall2 mirrors space hyper_space.
Proof.
  revert hyper_space. induction space as [|[p e] space IH]; intros hs.
  - intros [= <-]. constructor.
  - cbn [hyper_space_of].
    destruct (hyper_entry p e) as [err|h] eqn:Hentry; [done|].
    destruct (hyper_space_of space) as [err|hs'] eqn:Hrest; [done|].
    intros [= <-]. constructor; [by apply hyper_entry_mirrors|by apply IH].
Qed.

(** X4. When the space is accepted, the sampler space has the keys of the
    declaration in the same order, each entry labelled by its key; a choice
    entry carries the declared values in their order, a uniform one the
    first and last of the sorted values as bounds. *)
Theorem hyper_space_mirrors_space `{Collaborators} space hyper_space :
  hyper_space_of space = inr hyper_space →
  hyper_space.*1 = space.*1
  ∧ Forall2 mirrors space hyper_space.
Proof.
  intros Hspace%hyper_space_mirrors_aux. split; [|done].
  induction Hspace as [|pe ph space hs [Hkey _] _ IH]; [done|].
  cbn [fmap list_fmap]. by rewrite Hkey, IH.
Qed.

Lemma hyper_space_of_first_error `{Collaborators} pre hs p e err post :
  hyper_space_of pre = inr hs →
  hyper_entry p e = inl err →
  hyper_space_of (pre ++ (p, e) :: post)%list = inl err.
Proof.
  revert hs. induction pre as [|[q f] pre IH]; intros hs.
  - intros _ Herr. cbn [app hyper_space_of]. by rewrite Herr.
  - cbn [app hyper_space_of].
    destruct (hyper_entry q f) as [?|h]; [done|].
    destruct (hyper_space_of pre) as [?|hs'] eqn:Hpre; [done|].
    intros _ Herr. by rewrite (IH hs' eq_refl Herr).
Qed.

Lemma optimise_space_error `{Collaborators} space df max_evals self err :
  hyper_space_of space = inl err →
  optimise (Some space) df max_evals self = (inl err, self, []).
Proof.
  intros Herr. unfold optimise. destruct space as [|entry space]; [done|].
  cbn [length Nat.eqb]. by rewrite Herr.
Qed.

(** X5. When the first entry at fault declares no values, [optimise]
    raises the [ValueError] of line 545 naming its key, whatever its strategy,
    before any sampling: [self] is untouched and no trial runs. *)
Theorem optimise_missing_values `{Collaborators} pre hs p e post df max_evals
    self :
  hyper_space_of pre = inr hs →
  space_values e = None →
  optimise (Some (pre ++ (p, e) :: post)%list) df max_evals self
  = (inl (ValueError ("You must give a space list ie values for hyper parameter " ++ p ++ ".")),
     self, []).
Proof.
  intros Hpre Hvals. apply optimise_space_error.
  apply (hyper_space_of_first_error _ _ _ _ _ _ Hpre).
  unfold hyper_entry. by rewrite Hvals.
Qed.

(** X6. When the first entry at fault has values but a strategy that is
    neither "uniform" nor "choice", [optimise] raises the [ValueError] of
    line 559 naming its key, before any sampling. *)
Theorem optimise_invalid_strategy `{Collaborators} pre hs p e vals s post df
    max_evals self :
  hyper_space_of pre = inr hs →
  space_values e = Some vals →
  search e = Some s →
  s ≠ PyStr "uniform" →
  s ≠ PyStr "choice" →
  optimise (Some (pre ++ (p, e) :: post)%list) df max_evals self
  = (inl (ValueError ("Invalid search strategy for hyper parameter " ++ p ++ ". Please choose between 'choice' and 'uniform'.")),
     self, []).
Proof.
  intros Hpre Hvals Hsearch Hu%py_eq_str_false Hc%py_eq_str_false.
  apply optimise_space_error.
  apply (hyper_space_of_first_error _ _ _ _ _ _ Hpre).
  unfold hyper_entry. by rewrite Hvals, Hsearch, Hu, Hc.
Qed.

(** X7. A "uniform" entry whose sorted values are empty fails with an
    [IndexError], not with one of the two [ValueError]s, and again before any
    sampling. *)
Theorem optimise_uniform_without_bounds `{Collaborators} pre hs p e vals post
    df max_evals self :
  hyper_space_of pre = inr hs →
  space_values e = Some vals →
  search e = Some (PyStr "uniform") →
  np_sort vals = [] →
  optimise (Some (pre ++ (p, e) :: post)%list) df max_evals self
  = (inl IndexError, self, []).
Proof.
  intros Hpre Hvals Hsearch Hsort. apply optimise_space_error.
  apply (hyper_space_of_first_error _ _ _ _ _ _ Hpre).
  unfold hyper_entry. by rewrite Hvals, Hsearch, Hsort.
Qed.

Lemma dict_get_elem_of {V} (d : list (string * V)) k v :
  NoDup d.*1 → (k, v) ∈ d → dict_get d k = Some v.
Proof.
  unfold dict_get. induction d as [|[k' v'] d IH]; intros Hnodup Hin.
  - by apply elem_of_nil in Hin.
  - apply NoDup_cons in Hnodup as [Hfresh Hnodup]. cbn [List.find fst].
    apply elem_of_cons in Hin as [[= <- <-]|Hin].
    + by rewrite String.eqb_refl.
    + destruct (String.eqb_spec k' k) as [->|Hne]; [|by apply IH].
      destruct Hfresh. apply list_elem_of_fmap. by exists (k, v).
Qed.

(** X8. The translation of lines 574-581 reads the list that
    [hp.choice] was given: on a space with distinct keys, an in-range index
    sampled for a choice label is translated to the option at that index, and
    a value sampled for a uniform label is returned as it is. *)
Theorem choice_index_round_trip `{Collaborators} space hyper_space p h :
  NoDup space.*1 →
  hyper_space_of space = inr hyper_space →
  (p, h) ∈ hyper_space →
  match h with
  | hp_choice _ options =>
      ∀ i, 0 <= i < Z.of_nat (length options) →
           ∃ x, translate_entry space p (PyInt i) = inr x
                ∧ options !! Z.to_nat i = Some x
  | hp_uniform _ _ _ => ∀ v, translate_entry space p v = inr v
  end.
Proof.
  intros Hnodup Hspace Hin.
  apply hyper_space_mirrors_aux in Hspace.
  apply list_elem_of_lookup in Hin as [n Hn].
  destruct (Forall2_lookup_r _ _ _ _ _ Hspace Hn) as ([q e] & Hq & Hm).
  destruct Hm as [Hkey Hshape]. cbn [fst snd] in Hkey, Hshape. subst q.
  assert (Hget : dict_get space p = Some e).
  { apply dict_get_elem_of; [done|]. by eapply list_elem_of_lookup_2. }
  unfold translate_entry. rewrite Hget. destruct h as [name lo hi|name options].
  - destruct Hshape as (_ & Hu & _). unfold is_uniform in Hu. by rewrite Hu.
  - destruct Hshape as (_ & Hc & Hvals). intros i Hi.
    destruct (py_getitem_index options i Hi) as (x & Hx & Hlook & _).
    exists x. split; [|done].
    unfold choice_value. rewrite Hvals.
    by destruct Hc as [->| ->].
Qed.

Lemma hyper_space_mirrors_space_witness :
  ∃ hyper_space,
    hyper_space_of (H:=sample_collaborators) sample_space = inr hyper_space
    ∧ hyper_space.*1
      = ["est__max_depth"; "ne__numerical_strategy"; "est__subsample"].
Proof.
  eexists. split; [reflexivity|].
  apply (hyper_space_mirrors_space (H:=sample_collaborators) sample_space _
           eq_refl).
Defined.

Lemma optimise_missing_values_witness :
  optimise (H:=sample_collaborators)
    (Some [("est__max_depth",
            {| search := None; space_values := Some [PyInt 3; PyInt 5] |});
           ("est__subsample",
            {| search := Some (PyStr "uniform"); space_values := None |})])
    sample_clf 5 default_optimiser
  = (inl (ValueError "You must give a space list ie values for hyper parameter est__subsample."),
     default_optimiser, []).
Proof.
  apply (optimise_missing_values (H:=sample_collaborators)
           [("est__max_depth",
             {| search := None; space_values := Some [PyInt 3; PyInt 5] |})]
           _ "est__subsample"
           {| search := Some (PyStr "uniform"); space_values := None |} []
           sample_clf 5 default_optimiser eq_refl eq_refl).
Defined.

Lemma optimise_invalid_strategy_witness :
  optimise (H:=sample_collaborators)
    (Some [("est__max_depth",
            {| search := Some (PyStr "grid");
               space_values := Some [PyInt 3; PyInt 5] |})])
    sample_clf 5 default_optimiser
  = (inl (ValueError "Invalid search strategy for hyper parameter est__max_depth. Please choose between 'choice' and 'uniform'."),
     default_optimiser, []).
Proof.
  apply (optimise_invalid_strategy (H:=sample_collaborators) [] _
           "est__max_depth"
           {| search := Some (PyStr "grid");
              space_values := Some [PyInt 3; PyInt 5] |}
           _ _ [] sample_clf 5 default_optimiser eq_refl eq_refl eq_refl);
    discriminate.
Defined.

Lemma optimise_uniform_without_bounds_witness :
  optimise (H:=sample_collaborators)
    (Some [("est__subsample",
            {| search := Some (PyStr "uniform"); space_values := Some [] |})])
    sample_clf 5 default_optimiser
  = (inl IndexError, default_optimiser, []).
Proof.
  apply (optimise_uniform_without_bounds (H:=sample_collaborators) [] _
           "est__subsample"
           {| search := Some (PyStr "uniform"); space_values := Some [] |}
           _ [] sample_clf 5 default_optimiser eq_refl eq_refl eq_refl eq_refl).
Defined.

Lemma choice_index_round_trip_witness :
  ∃ x, translate_entry sample_space "est__max_depth" (PyInt 2) = inr x
       ∧ [PyInt 3; PyInt 5; PyInt 7] !! Z.to_nat 2 = Some x.
Proof.
  assert (Hnodup : NoDup sample_space.*1).
  { apply NoDup_ListNoDup. repeat constructor; simpl; intuition discriminate. }
  assert (Hin : ("est__max_depth",
                 hp_choice "est__max_depth" [PyInt 3; PyInt 5; PyInt 7])
                ∈ [("est__max_depth",
                    hp_choice "est__max_depth" [PyInt 3; PyInt 5; PyInt 7]);
                   ("ne__numerical_strategy",
                    hp_choice "ne__numerical_strategy" [PyInt 0; PyStr "mean"]);
                   ("est__subsample",
                    hp_uniform "est__subsample" (PyFloat (Finite 1 (-1)))
                      (PyFloat (Finite 1 0)))])
    by apply list_elem_of_here.
  apply (choice_index_round_trip (H:=sample_collaborators) sample_space _
           "est__max_depth" _ Hnodup eq_refl Hin 2).
  simpl. lia.
Defined.

(** ** Empty spaces and failed candidates *)

(** X9. [optimise] warns that the space is empty exactly when the space is
    [None] or has no entry, and it then returns an empty dictionary and
    leaves [self] alone, whatever the sampler would have done. *)
Theorem empty_space_warning_iff `{Collaborators} space df max_evals self :
  ((optimise space df max_evals self).2 = [empty_space_warning]
   ↔ space = None ∨ space = Some [])
  ∧ (space = None ∨ space = Some [] →
     optimise space df max_evals self = (inr [], self, [empty_space_warning])).
Proof.
  unfold optimise. destruct space as [[|entry sp]|].
  - split; [|done]. split; [by right|done].
  - cbn [length Nat.eqb]. split; [|by intros [[=]|[=]]].
    split; [|by intros [[=]|[=]]].
    destruct (hyper_space_of (entry :: sp)) as [err|hs]; [done|].
    by destruct (fmin _ _ _ _) as [[err|best] self'].
  - split; [|done]. split; [by left|done].
Qed.

Lemma fit_and_report_accepts `{Collaborators} params df env self ws :
  match params with
  | Some d => set_params_ok (create_pipeline params env self) d
  | None => true
  end = true →
  fit_and_report params df env self ws
  = let scores_score :=
      match cross_validate (create_pipeline params env self) params df env self with
      | Some scores => (scores, np_mean scores)
      | None => (replicate (Z.to_nat (n_folds self)) NegInf, NegInf)
      end in
    report (i_after_listing self env) scores_score.1 scores_score.2 env self
      (if is_neg_inf scores_score.2
       then (ws ++ [failure_warning])%list else ws).
Proof.
  intros Hok. unfold fit_and_report. rewrite Hok.
  by destruct (cross_validate _ _ _ _ _).
Qed.

Lemma fit_and_report_cv_failure `{Collaborators} params df env self ws :
  2 <= n_folds self →
  match params with
  | Some d => set_params_ok (create_pipeline params env self) d
  | None => true
  end = true →
  cross_validate (create_pipeline params env self) params df env self = None →
  ev_return (fit_and_report params df env self ws) = inr NegInf.
Proof.
  intros Hn Hok Hcv. rewrite (fit_and_report_accepts _ _ _ _ _ Hok), Hcv.
  cbn [fst snd].
  destruct (Z.to_nat (n_folds self)) as [|[|n]] eqn:Hnat; [lia|lia|].
  by eapply report_return_folds.
Qed.

(** X10. A candidate that the pipeline accepts and on which
    cross-validation raises costs the sampler a loss of plus infinity. *)
Theorem failed_candidate_has_infinite_loss `{Collaborators} d df self env self'
    ws :
  task_setup (Some d) df self = inr (env, self', ws) →
  set_params_ok (create_pipeline (Some d) env self') d = true →
  cross_validate (create_pipeline (Some d) env self') (Some d) df env self'
  = None →
  (hyperopt_objective df d self).1 = inr PosInf.
Proof.
  intros Hsetup Hok Hcv. unfold hyperopt_objective. cbn [fst].
  rewrite (evaluate_inr _ _ _ _ _ _ Hsetup).
  destruct (task_setup_inr _ _ _ _ _ _ Hsetup) as (Hn & _ & _ & _ & _ & _ & Hself).
  rewrite fit_and_report_cv_failure; [done| |done|done].
  by rewrite Hself.
Qed.

Lemma default_scoring_warnings t sc sc' a ws :
  default_scoring t sc = (sc', a, ws) → failure_warning ∉ ws.
Proof.
  destruct t, sc as [|s|c]; cbn [default_scoring].
  - intros [= <- <- <-]. apply not_elem_of_nil.
  - destruct (String.eqb s "roc_auc"); [intros [= <- <- <-]; apply not_elem_of_nil|].
    destruct (str_in s clf_scorings); intros [= <- <- <-];
      [apply not_elem_of_nil|].
    intros [[=]|Hin%elem_of_nil]%elem_of_cons. done.
  - intros [= <- <- <-]. apply not_elem_of_nil.
  - intros [= <- <- <-]. apply not_elem_of_nil.
  - destruct (str_in s reg_scorings); intros [= <- <- <-];
      [apply not_elem_of_nil|].
    intros [[=]|Hin%elem_of_nil]%elem_of_cons. done.
  - intros [= <- <- <-]. apply not_elem_of_nil.
Qed.

Lemma report_fields i scores score env self ws :
  ev_warnings (report i scores score env self ws) = ws
  ∧ ev_scores (report i scores score env self ws) = Some scores
  ∧ ∀ x, ev_return (report i scores score env self ws) = inr x → x = score.
Proof.
  unfold report. cbn [ev_warnings ev_scores ev_return]. repeat split.
  intros x. destruct (verbose _); [|by intros [= <-]].
  destruct (i_after_folds i scores); [|done].
  destruct (last scores); [by intros [= <-]|done].
Qed.

(** X11. When [evaluate] returns, the warning of line 429 is among its
    warnings exactly when the score returned is minus infinity, be it the
    sentinel of a failed cross-validation or a mean that is itself minus
    infinity. *)
Theorem failure_warning_iff_neg_inf `{Collaborators} params df self score :
  ev_return (evaluate params df self) = inr score →
  failure_warning ∈ ev_warnings (evaluate params df self) ↔ score = NegInf.
Proof.
  destruct (task_setup params df self) as [err|[[env self1] ws]] eqn:Hsetup.
  { unfold evaluate. by rewrite Hsetup. }
  rewrite (evaluate_inr _ _ _ _ _ _ Hsetup).
  destruct (task_setup_inr _ _ _ _ _ _ Hsetup) as (_ & _ & _ & _ & _ & Hsc & _).
  apply default_scoring_warnings in Hsc.
  destruct (match params with
            | Some d => set_params_ok (create_pipeline params env self1) d
            | None => true
            end) eqn:Hok.
  2: { unfold fit_and_report. by rewrite Hok. }
  rewrite (fit_and_report_accepts _ _ _ _ _ Hok).
  set (ss := match cross_validate _ _ _ _ _ with
             | Some scores => _ | None => _ end).
  cbn zeta. intros Hret.
  destruct (report_fields (i_after_listing self1 env) ss.1 ss.2 env self1
              (if is_neg_inf ss.2 then (ws ++ [failure_warning])%list else ws))
    as (-> & _ & Hscore).
  apply Hscore in Hret as ->.
  destruct ss.2 eqn:Hs; cbn [is_neg_inf]; try (split; [done|discriminate]).
  split; [done|]. intros _. apply elem_of_app. right. apply list_elem_of_here.
Qed.

Lemma failed_candidate_has_infinite_loss_witness :
  (hyperopt_objective (H:=sample_collaborators) sample_empty depth_candidate
     default_optimiser).1 = inr PosInf.
Proof.
  apply (failed_candidate_has_infinite_loss (H:=sample_collaborators)
           depth_candidate sample_empty default_optimiser _ _ _ eq_refl
           eq_refl eq_refl).
Defined.

Lemma failure_warning_iff_neg_inf_witness :
  failure_warning
  ∈ ev_warnings (evaluate (H:=sample_collaborators) None sample_empty
                   default_optimiser).
Proof.
  apply (failure_warning_iff_neg_inf (H:=sample_collaborators) None
           sample_empty default_optimiser NegInf eq_refl).
  reflexivity.
Defined.

(** ** More on [evaluate]: scorer, step names, reuse, return value *)

(** X12. With [scoring = "roc_auc"] on a Classification target, a call that
    raises because the pipeline refuses the candidate leaves [self.scoring]
    holding the wrapped scorer object: the name is put back only by line 443,
    which the [raise] of line 425 never reaches. *)
Theorem rejected_candidate_keeps_wrapped_scorer `{Collaborators} d df self env
    self' ws :
  task_setup (Some d) df self = inr (env, self', ws) →
  te_task env = Classification →
  scoring self = ScoringStr "roc_auc" →
  set_params_ok (create_pipeline (Some d) env self') d = false →
  scoring (ev_self (evaluate (Some d) df self)) = ScoringCallable RocAucScorer.
Proof.
  intros Hsetup Htask Hroc Hrej.
  rewrite (evaluate_inr _ _ _ _ _ _ Hsetup).
  unfold fit_and_report. rewrite Hrej. cbn [ev_self].
  destruct (task_setup_inr _ _ _ _ _ _ Hsetup) as (_ & _ & _ & _ & _ & Hsc & _).
  rewrite Htask, Hroc in Hsc. cbn in Hsc. by injection Hsc as <- _ _.
Qed.

Lemma rejected_candidate_keeps_wrapped_scorer_witness :
  scoring (ev_self (evaluate (H:=sample_collaborators) (Some misnamed_candidate)
                      sample_clf
                      (mkOptimiser (ScoringStr "roc_auc") 2 1 "save" true)))
  = ScoringCallable RocAucScorer.
Proof.
  apply (rejected_candidate_keeps_wrapped_scorer (H:=sample_collaborators)
           misnamed_candidate sample_clf
           (mkOptimiser (ScoringStr "roc_auc") 2 1 "save" true) _ _ _
           eq_refl eq_refl eq_refl eq_refl).
Defined.

Lemma prefix_empty s : String.prefix "" s = true.
Proof. by destruct s. Qed.

Lemma split_head_stck p :
  startswith p "stck" = true → startswith (split_head p) "stck" = true.
Proof.
  unfold startswith. intros Hpre.
  destruct p as [|a [|b [|c [|d rest]]]]; cbn [String.prefix] in Hpre;
    try done;
    repeat (match type of Hpre with
            | context [ascii_dec ?x ?y] =>
                destruct (ascii_dec x y) as [<-|]; try done
            end).
  destruct rest as [|e rest]; cbn; [done|apply prefix_empty].
Qed.

Lemma steps_create_pipeline params df self env self' ws :
  task_setup params df self = inr (env, self', ws) →
  steps (create_pipeline params env self')
  = ([("ne", NA_encoder); ("ce", Categorical_encoder)]
     ++ match scan_fs (te_task env) params with
        | Some f => [("fs", f)]
        | None => []
        end
     ++ ((λ tag, (tag, stacking_of (te_task env)))
           <$> sorted_tags (scan_stck (te_task env) params))
     ++ [("est", estimator_of (te_task env))])%list.
Proof.
  intros Hsetup.
  destruct (task_setup_inr _ _ _ _ _ _ Hsetup)
    as (_ & _ & Hest & Hfs & Hstck & _ & _).
  assert (steps (create_pipeline params env self')
          = pipe_steps (est env) (fs env) (STCK env)) as ->.
  { unfold create_pipeline. by destruct (needs_caching _ _ _). }
  unfold pipe_steps. rewrite Hest, Hfs, Hstck.
  rewrite (stacking_steps _ (stacking_of (te_task env))).
  - destruct (scan_fs _ _); simpl; by rewrite <- ?app_assoc.
  - intros tag [s Hs]%sorted_tags_elem_of.
    by apply scan_stck_lookup in Hs as H'; destruct H' as [-> _].
Qed.

Lemma sorted_tags_stck t params tag :
  tag ∈ sorted_tags (scan_stck t params) → startswith tag "stck" = true.
Proof.
  intros [s Hs]%sorted_tags_elem_of.
  apply scan_stck_lookup in Hs as (_ & d & p & _ & _ & Hpre & <-).
  by apply split_head_stck.
Qed.

(** X13. The step names of the assembled pipeline are pairwise distinct:
    every stacking tag starts with "stck", so that it is none of "ne", "ce",
    "fs" and "est", and the tags themselves are the keys of a dictionary. *)
Theorem step_names_distinct params df self env self' ws :
  task_setup params df self = inr (env, self', ws) →
  NoDup (steps (create_pipeline params env self')).*1.
Proof.
  intros Hsetup. rewrite (steps_create_pipeline _ _ _ _ _ _ Hsetup).
  set (tags := sorted_tags (scan_stck (te_task env) params)).
  assert (((λ tag : string, (tag, stacking_of (te_task env))) <$> tags).*1
          = tags) as Htags.
  { rewrite <- list_fmap_compose. apply list_fmap_id. }
  assert (Hstck : ∀ tag, tag ∈ tags → startswith tag "stck" = true)
    by (intros tag; apply sorted_tags_stck).
  assert (Hend : NoDup (tags ++ ["est"])%list).
  { apply NoDup_app. split; [apply sorted_tags_NoDup|].
    split; [|apply NoDup_singleton].
    by intros tag Htag%Hstck ->%list_elem_of_singleton. }
  assert (Hfixed : ∀ x, x ∈ ["ne"; "ce"; "fs"] → x ∉ (tags ++ ["est"])%list).
  { intros x Hx [Htag%Hstck|Hest%list_elem_of_singleton]%elem_of_app;
      repeat (apply elem_of_cons in Hx as [->|Hx]; [done|]);
      by apply elem_of_nil in Hx. }
  rewrite !fmap_app, Htags.
  destruct (scan_fs (te_task env) params); cbn [fmap list_fmap fst app].
  - change (NoDup (["ne"; "ce"; "fs"] ++ (tags ++ ["est"]))%list).
    apply NoDup_app. split; [|by split].
    apply NoDup_ListNoDup. repeat constructor; simpl; intuition discriminate.
  - change (NoDup (["ne"; "ce"] ++ (tags ++ ["est"]))%list).
    apply NoDup_app. split; [|split; [|done]].
    + apply NoDup_ListNoDup. repeat constructor; simpl; intuition discriminate.
    + intros x Hx. apply Hfixed.
      apply elem_of_cons in Hx as [->|Hx]; [apply list_elem_of_here|].
      apply list_elem_of_further. apply elem_of_cons in Hx as [->|Hx];
        [apply list_elem_of_here|by apply elem_of_nil in Hx].
Qed.

Lemma step_names_distinct_witness :
  ∃ env self' ws,
    task_setup (Some sample_candidate) sample_clf default_optimiser
    = inr (env, self', ws)
    ∧ NoDup (steps (create_pipeline (Some sample_candidate) env self')).*1.
Proof.
  eexists _, _, _. split; [reflexivity|].
  apply (step_names_distinct (Some sample_candidate) sample_clf
           default_optimiser _ _ _ eq_refl).
Defined.

Lemma fit_and_report_warnings `{Collaborators} params df env self ws w :
  w ∈ ws → w ∈ ev_warnings (fit_and_report params df env self ws).
Proof.
  intros Hw. unfold fit_and_report.
  destruct (match params with Some d => _ | None => true end); [|done].
  destruct (cross_validate _ _ _ _ _) as [scores|];
    [destruct (is_neg_inf (np_mean scores))|cbn [is_neg_inf]];
    cbn [report ev_warnings]; rewrite ?elem_of_app; auto.
Qed.

(** X14. An optimiser built without a scoring and used on an integer
    target holds ["log_loss"] afterwards; used next on a float target, it
    warns that the scoring metric is invalid and holds
    ["mean_squared_error"]. *)
Theorem reuse_across_tasks_warns `{Collaborators} p1 df1 p2 df2 self :
  scoring self = ScoringNone →
  series_dtype (target df1) = dtype_int →
  series_dtype (target df2) = dtype_float →
  2 <= n_folds self →
  let first := evaluate p1 df1 self in
  let second := evaluate p2 df2 (ev_self first) in
  scoring (ev_self first) = ScoringStr "log_loss"
  ∧ Warn "Invalid scoring metric. mean_squarred_error is used instead."
    ∈ ev_warnings second
  ∧ scoring (ev_self second) = ScoringStr "mean_squared_error".
Proof.
  intros Hnone Hint Hfloat Hn first second.
  assert (Hcheck : ∀ sc, check_n_splits (n_folds (set_scoring self sc)) = None).
  { intros sc. unfold check_n_splits. cbn [n_folds set_scoring].
    destruct (n_folds self <=? 1) eqn:Hle; [apply Z.leb_le in Hle; lia|done]. }
  assert (Hcheck0 : check_n_splits (n_folds self) = None).
  { unfold check_n_splits.
    destruct (n_folds self <=? 1) eqn:Hle; [apply Z.leb_le in Hle; lia|done]. }
  assert (∃ env1, task_setup p1 df1 self
                  = inr (env1, set_scoring self (ScoringStr "log_loss"), [])
                  ∧ auc env1 = false) as (env1 & Hsetup1 & Hauc1).
  { unfold task_setup. destruct (target df1) as [rows|rows|rows]; try done.
    rewrite Hcheck0, Hnone. cbn [default_scoring]. by eexists. }
  assert (Hfirst : ev_self first = set_scoring self (ScoringStr "log_loss")).
  { subst first. rewrite (evaluate_inr _ _ _ _ _ _ Hsetup1).
    destruct (fit_and_report_self p1 df1 env1
                (set_scoring self (ScoringStr "log_loss")) [])
      as [->|[Hauc _]]; [done|congruence]. }
  assert (∃ env2, task_setup p2 df2 (ev_self first)
                  = inr (env2, set_scoring self (ScoringStr "mean_squared_error"),
                         [Warn "Invalid scoring metric. mean_squarred_error is used instead."])
                  ∧ auc env2 = false) as (env2 & Hsetup2 & Hauc2).
  { rewrite Hfirst. unfold task_setup.
    destruct (target df2) as [rows|rows|rows]; try done.
    rewrite Hcheck. cbn [scoring set_scoring default_scoring]. by eexists. }
  split; [by rewrite Hfirst|]. subst second.
  rewrite (evaluate_inr _ _ _ _ _ _ Hsetup2). split.
  - apply fit_and_report_warnings, list_elem_of_here.
  - destruct (fit_and_report_self p2 df2 env2
                (set_scoring self (ScoringStr "mean_squared_error"))
                [Warn "Invalid scoring metric. mean_squarred_error is used instead."])
      as [->|[Hauc _]]; [done|congruence].
Qed.

Lemma reuse_across_tasks_warns_witness :
  Warn "Invalid scoring metric. mean_squarred_error is used instead."
  ∈ ev_warnings
      (evaluate (H:=sample_collaborators) None sample_reg
         (ev_self (evaluate (H:=sample_collaborators) None sample_clf
                     default_optimiser))).
Proof.
  apply (reuse_across_tasks_warns (H:=sample_collaborators) None sample_clf
           None sample_reg default_optimiser eq_refl eq_refl eq_refl).
  simpl. lia.
Defined.

Lemma split_head_cons c rest :
  c ≠ "_"%char → split_head (String c rest) = String c (split_head rest).
Proof.
  intros Hc. destruct c as [[] [] [] [] [] [] [] []]; try reflexivity.
  by destruct Hc.
Qed.

Lemma split_head_tag tag name :
  (∀ c, In c (list_ascii_of_string tag) → c ≠ "_"%char) →
  split_head (tag ++ "__" ++ name) = tag.
Proof.
  induction tag as [|c tag IH]; intros Hclean; [done|].
  change (String c tag ++ "__" ++ name)
    with (String c (tag ++ "__" ++ name)).
  rewrite split_head_cons by (apply Hclean; by left).
  rewrite IH; [done|]. intros c' Hc'. apply Hclean. by right.
Qed.

Lemma prefix_append a b c :
  String.prefix a b = true → String.prefix a (b ++ c) = true.
Proof.
  revert b. induction a as [|x a IH]; intros b; [intros _; apply prefix_empty|].
  destruct b as [|y b]; [done|].
  change (String y b ++ c) with (String y (b ++ c)). cbn [String.prefix].
  destruct (ascii_dec x y); [apply IH|done].
Qed.

(** X15. A candidate key [tag__name], with [tag] starting with "stck" and
    free of underscores, puts a stacking layer named [tag], of the variant
    of the task, into the assembled pipeline. *)
Theorem stacking_key_names_layer d df self env self' ws tag name :
  task_setup (Some d) df self = inr (env, self', ws) →
  is_Some (d !! (tag ++ "__" ++ name)) →
  startswith tag "stck" = true →
  (∀ c, In c (list_ascii_of_string tag) → c ≠ "_"%char) →
  (tag, stacking_of (te_task env))
  ∈ steps (create_pipeline (Some d) env self').
Proof.
  intros Hsetup Hkey Hpre Hclean.
  rewrite (steps_create_pipeline _ _ _ _ _ _ Hsetup).
  rewrite !elem_of_app. right; right; left.
  apply list_elem_of_fmap. exists tag. split; [done|].
  apply sorted_tags_elem_of. exists (stacking_of (te_task env)).
  apply scan_stck_lookup. split; [done|].
  exists d, (tag ++ "__" ++ name). split; [done|]. split; [done|]. split.
  - by apply prefix_append.
  - by apply split_head_tag.
Qed.

Lemma stacking_key_names_layer_witness :
  ∃ env self' ws,
    task_setup (Some sample_candidate) sample_clf default_optimiser
    = inr (env, self', ws)
    ∧ ("stck2", StackingClassifier)
      ∈ steps (create_pipeline (Some sample_candidate) env self').
Proof.
  eexists _, _, _. split; [reflexivity|].
  apply (stacking_key_names_layer sample_candidate sample_clf default_optimiser
           _ _ _ "stck2" "level_estimator" eq_refl).
  - eexists. reflexivity.
  - reflexivity.
  - simpl. intros c Hc. repeat (destruct Hc as [<-|Hc]; [discriminate|]).
    destruct Hc.
Defined.

(** X16. When the pipeline accepts the candidate and cross-validation
    gives at least two fold scores, [evaluate] returns [np.mean] of these
    scores and [scores] is the list that cross-validation gave. *)
Theorem evaluate_returns_mean `{Collaborators} params df self env self' ws
    scores :
  task_setup params df self = inr (env, self', ws) →
  (∀ d, params = Some d →
        set_params_ok (create_pipeline params env self') d = true) →
  cross_validate (create_pipeline params env self') params df env self'
  = Some scores →
  (2 <= length scores)%nat →
  ev_return (evaluate params df self) = inr (np_mean scores)
  ∧ ev_scores (evaluate params df self) = Some scores.
Proof.
  intros Hsetup Hset Hcv Hlen. rewrite (evaluate_inr _ _ _ _ _ _ Hsetup).
  rewrite fit_and_report_accepts, Hcv.
  2: { destruct params as [d|]; [|done]. by apply Hset. }
  cbn [fst snd]. split; [|apply report_fields].
  destruct scores as [|x [|y rest]]; [simpl in Hlen; lia..|].
  by eapply report_return_folds.
Qed.

Lemma evaluate_returns_mean_witness :
  ev_return (evaluate (H:=sample_collaborators) None sample_reg
               default_optimiser) = inr (Finite (-1) 0).
Proof.
  apply (evaluate_returns_mean (H:=sample_collaborators) None sample_reg
           default_optimiser _ _ _ [Finite (-1) 0; Finite (-1) 0] eq_refl
           ltac:(intros d; discriminate) eq_refl).
  simpl. lia.
Defined.

(** X17. With [verbose = False], [evaluate] raises exactly when the task
    branch raises, with that exception, or when the pipeline refuses a
    candidate, with the [ValueError] of line 425; nothing that happens in
    cross-validation or in the report makes it raise. *)
Theorem quiet_evaluate_raises_iff `{Collaborators} params df self e :
  verbose self = false →
  ev_return (evaluate params df self) = inl e
  ↔ task_setup params df self = inl e
    ∨ ∃ env self' ws d,
        task_setup params df self = inr (env, self', ws)
        ∧ params = Some d
        ∧ set_params_ok (create_pipeline params env self') d = false
        ∧ e = ValueError "Pipeline cannot be set with these parameters. Check the name of your stages.".
Proof.
  intros Hquiet.
  destruct (task_setup params df self) as [err|[[env self1] ws]] eqn:Hsetup.
  { unfold evaluate. rewrite Hsetup. cbn [ev_return]. split.
    - intros [= ->]. by left.
    - intros [[= ->]|(? & ? & ? & ? & [=] & _)]. done. }
  rewrite (evaluate_inr _ _ _ _ _ _ Hsetup).
  destruct (task_setup_inr _ _ _ _ _ _ Hsetup) as (_ & _ & _ & _ & _ & _ & Hself).
  assert (Hquiet1 : verbose self1 = false) by (by rewrite Hself).
  destruct (match params with
            | Some d => set_params_ok (create_pipeline params env self1) d
            | None => true
            end) eqn:Hok.
  - rewrite (fit_and_report_accepts _ _ _ _ _ Hok). cbn zeta.
    unfold report. cbn [ev_return].
    assert (verbose (if auc env
                     then set_scoring self1 (ScoringStr "roc_auc")
                     else self1) = false) as ->
      by (by destruct (auc env)).
    split; [done|]. intros [[=]|(env' & self' & ws' & d & [= <- <- <-] & -> & Hrej & _)].
    congruence.
  - unfold fit_and_report. rewrite Hok. cbn [ev_return]. split.
    + intros [= <-]. right. destruct params as [d|]; [|done].
      by exists env, self1, ws, d.
    + by intros [[=]|(_ & _ & _ & _ & _ & _ & _ & ->)].
Qed.

Lemma quiet_evaluate_raises_iff_witness :
  ev_return (evaluate (H:=sample_collaborators) (Some misnamed_candidate)
               sample_clf (mkOptimiser ScoringNone 2 1 "save" false))
  = inl (ValueError "Pipeline cannot be set with these parameters. Check the name of your stages.").
Proof.
  apply (quiet_evaluate_raises_iff (H:=sample_collaborators)
           (Some misnamed_candidate) sample_clf
           (mkOptimiser ScoringNone 2 1 "save" false) _ eq_refl).
  right. eexists _, _, _, _. split; [reflexivity|]. split; [reflexivity|].
  split; reflexivity.
Defined.

(** ** Rows that are kept *)

Lemma label_unique {A} (rows : list (label * A)) l a b :
  NoDup rows.*1 → (l, a) ∈ rows → (l, b) ∈ rows → a = b.
Proof.
  induction rows as [|[l' c] rows IH]; intros Hnodup Ha Hb.
  - by apply elem_of_nil in Ha.
  - apply NoDup_cons in Hnodup as [Hfresh Hnodup].
    apply elem_of_cons in Ha as [Ha|Ha];
      apply elem_of_cons in Hb as [Hb|Hb]; simplify_eq; try done.
    + destruct Hfresh. apply list_elem_of_fmap.
      eexists (_, _). split; [|eassumption]. done.
    + destruct Hfresh. apply list_elem_of_fmap.
      eexists (_, _). split; [|eassumption]. done.
    + by apply IH.
Qed.

Lemma indexes_to_drop_clf_present rows folds :
  forallb (λ l, mem_label l rows.*1) (indexes_to_drop_clf rows folds) = true.
Proof.
  apply forallb_forall. intros l Hl%list_elem_of_In.
  apply indexes_to_drop_clf_spec in Hl as (c & Hin & _).
  apply mem_label_true, list_elem_of_fmap. by exists (l, c).
Qed.

(** X18. On a Classification target whose index labels are distinct, the
    target handed to cross-validation is exactly the rows whose class occurs
    at least [n_folds] times, in their order: no row of a class that is
    frequent enough is lost, and the drop itself cannot fail. *)
Theorem healthy_classes_kept params df self env self' ws rows :
  task_setup params df self = inr (env, self', ws) →
  target df = IntSeries rows →
  NoDup rows.*1 →
  series_drop (target df) (indexes_to_drop env)
  = Some (IntSeries
            (List.filter
               (λ r, n_folds self
                     <=? Z.of_nat (count_occ Z.eq_dec rows.*2 r.2))
               rows)).
Proof.
  intros Hsetup Htarget Hnodup.
  destruct (task_setup_indexes _ _ _ _ _ _ Hsetup) as [-> _].
  rewrite Htarget. unfold series_drop, drop_rows.
  rewrite indexes_to_drop_clf_present. cbn [fmap option_fmap option_map].
  do 2 f_equal. apply filter_ext_in. intros [l c] Hin%list_elem_of_In.
  cbn [fst snd]. rewrite <- class_count_occ.
  destruct (mem_label l (indexes_to_drop_clf rows (n_folds self))) eqn:Hmem;
    cbn [negb]; symmetry.
  - apply mem_label_true, indexes_to_drop_clf_spec in Hmem as (c' & Hin' & Hlt).
    rewrite (label_unique rows l c c' Hnodup Hin Hin'). by apply Z.leb_gt.
  - apply Z.leb_le. destruct (Z.le_gt_cases (n_folds self) (class_count c rows))
      as [Hle|Hlt]; [done|].
    assert (mem_label l (indexes_to_drop_clf rows (n_folds self)) = true)
      as Hyes; [|congruence].
    apply mem_label_true, indexes_to_drop_clf_spec. by exists c.
Qed.

Lemma healthy_classes_kept_witness :
  ∃ env self' ws,
    task_setup None sample_clf default_optimiser = inr (env, self', ws)
    ∧ series_drop (target sample_clf) (indexes_to_drop env)
      = Some (IntSeries [(0, 0); (1, 0); (2, 0)]).
Proof.
  eexists _, _, _. split; [reflexivity|].
  apply (healthy_classes_kept None sample_clf default_optimiser _ _ _
           [(0, 0); (1, 0); (2, 0); (3, 1)] eq_refl eq_refl).
  apply NoDup_ListNoDup. repeat constructor; simpl; intuition discriminate.
Defined.
